(** * The NFS client statistics parser (plugins/inputs/nfsclient/nfsclient.go)

    A shallow embedding of [Init], [convertToUint64], [parseStat] and
    [processText], followed by the properties of the parser that the
    specification states about them.

    Conventions of the embedding:
    - a Go [string] is a [string] (a sequence of bytes), a [[]string] a
      [list string];
    - a [uint64] is a [Z] in [0, 2^64), with the wrap-around of [+] and [-]
      written out ([wrap64]);
    - a [float64] is a [spec_float] at precision 53 and exponent bound 1024;
    - a Go [map] is a [gmap]; a lookup of a missing key in a
      [map[string]bool] yields [false] ([mapGet]);
    - the accumulator is the list of the metrics added so far, threaded
      through the code by the monad [M]; a run ends normally, with a
      returned [error], or with a run-time panic (index out of range). *)

From Stdlib Require Import ZArith Lia Ascii String SpecFloat.
From stdpp Require Import base strings list gmap.

Local Open Scope string_scope.
Local Open Scope list_scope.
Local Open Scope Z_scope.

(** ** Machine integers and floats *)

Definition maxUint64 : Z := 18446744073709551615.
Definition two64 : Z := 18446744073709551616.

Definition wrap64 (z : Z) : Z := z mod two64.

Definition float64 : Type := spec_float.

(** The conversion [float64(x)] of an unsigned integer: round to nearest,
    ties to even. *)
Definition float64_of_uint64 (z : Z) : float64 :=
  binary_normalize 53 1024 z 0 false.

Definition float64_div (x y : float64) : float64 := SFdiv 53 1024 x y.

Definition float64_zero : float64 := S754_zero false.

(** ** The pieces of Go's standard library that the parser calls *)

Definition byteval (c : ascii) : Z := Z.of_N (N_of_ascii c).

Definition isDigit (c : ascii) : bool :=
  (48 <=? byteval c) && (byteval c <=? 57).

Inductive numError : Type := ErrSyntax | ErrRange.

(** [strconv.ParseUint(s, 10, 64)]: the digits are accumulated from the
    left; [cutoff] is the smallest number whose tenfold exceeds
    [maxUint64].  The result is the value and the error, as in Go:
    [(0, ErrSyntax)] on a character that is no decimal digit (or on the
    empty string), [(maxUint64, ErrRange)] as soon as the accumulated value
    leaves the range. *)
Definition cutoff : Z := maxUint64 / 10 + 1.

Fixpoint ParseUint_digits (s : string) (n : Z) : Z * option numError :=
  match s with
  | EmptyString => (n, None)
  | String c s' =>
      if isDigit c then
        let d := byteval c - 48 in
        if cutoff <=? n then (maxUint64, Some ErrRange)
        else
          let n10 := wrap64 (n * 10) in
          let n1 := wrap64 (n10 + d) in
          if (n1 <? n10) || (maxUint64 <? n1) then (maxUint64, Some ErrRange)
          else ParseUint_digits s' n1
      else (0, Some ErrSyntax)
  end.

Definition ParseUint (s : string) : Z * option numError :=
  match s with
  | EmptyString => (0, Some ErrSyntax)
  | _ => ParseUint_digits s 0
  end.

(** [unicode.IsSpace] on the UTF-8 encoding: the number of bytes of the
    white-space rune that starts the string, 0 when there is none.  The
    runes are U+0009..U+000D, U+0020, U+0085, U+00A0, U+1680,
    U+2000..U+200A, U+2028, U+2029, U+202F, U+205F and U+3000. *)
Definition spaceWidth (s : string) : nat :=
  match s with
  | EmptyString => 0%nat
  | String c0 s1 =>
      let b0 := byteval c0 in
      if ((9 <=? b0) && (b0 <=? 13)) || (b0 =? 32) then 1%nat
      else
        match s1 with
        | EmptyString => 0%nat
        | String c1 s2 =>
            let b1 := byteval c1 in
            if (b0 =? 194) && ((b1 =? 133) || (b1 =? 160)) then 2%nat
            else
              match s2 with
              | EmptyString => 0%nat
              | String c2 _ =>
                  let b2 := byteval c2 in
                  if (b0 =? 225) && (b1 =? 154) && (b2 =? 128) then 3%nat
                  else if (b0 =? 226) && (b1 =? 128) &&
                          (((128 <=? b2) && (b2 <=? 138)) || (b2 =? 168) ||
                           (b2 =? 169) || (b2 =? 175)) then 3%nat
                  else if (b0 =? 226) && (b1 =? 129) && (b2 =? 159) then 3%nat
                  else if (b0 =? 227) && (b1 =? 128) && (b2 =? 128) then 3%nat
                  else 0%nat
              end
        end
  end.

(** [strings.Fields]: the maximal runs of bytes between white space.
    [skip] counts the bytes of a white-space rune still to be dropped,
    [cur] is the field being read ([None] between fields). *)
Definition flushField (cur : option string) (fs : list string) : list string :=
  match cur with
  | Some f => f :: fs
  | None => fs
  end.

Fixpoint Fields_from (skip : nat) (cur : option string) (s : string) : list string :=
  match s with
  | EmptyString => flushField cur []
  | String c s' =>
      match skip with
      | S k => Fields_from k None s'
      | O =>
          match spaceWidth s with
          | O => Fields_from 0 (Some (default "" cur +:+ String c "")) s'
          | S k => flushField cur (Fields_from k None s')
          end
      end
  end.

Definition Fields (s : string) : list string := Fields_from 0 None s.

(** [strings.Split(s, sep)] for a separator of one byte. *)
Fixpoint Split_from (cur : string) (s : string) (sep : ascii) : list string :=
  match s with
  | EmptyString => [cur]
  | String c s' =>
      if Ascii.eqb c sep then cur :: Split_from "" s' sep
      else Split_from (cur +:+ String c "") s' sep
  end.

Definition Split (s : string) (sep : ascii) : list string := Split_from "" s sep.

(** [strings.Replace(s, old, "", 1)] for [old] of one byte: the first
    occurrence of the byte is removed. *)
Fixpoint Replace1 (s : string) (old : ascii) : string :=
  match s with
  | EmptyString => EmptyString
  | String c s' => if Ascii.eqb c old then s' else String c (Replace1 s' old)
  end.

(** [choice.Contains(choice, choices)] of telegraf's [internal/choice]. *)
Definition Contains (choice : string) (choices : list string) : bool :=
  existsb (String.eqb choice) choices.

(** A compiled [*regexp.Regexp], known by what [MatchString] answers. *)
Record Regexp : Type := { MatchString : string -> bool }.

(** ** Errors, panics and the accumulator *)

Inductive error : Type :=
| errrange (line : list string) (raw : string) (parsed : Z)
| could_not_parseStat (e : error)
| bad_include_pattern (pattern : string)
| bad_exclude_pattern (pattern : string).

Inductive panic : Type :=
| index_out_of_range (i len : nat).

Inductive result (A : Type) : Type :=
| Ok (a : A)
| Err (e : error)
| Panic (p : panic).
Arguments Ok {A} a.
Arguments Err {A} e.
Arguments Panic {A} p.

Inductive value : Type :=
| VUint (z : Z)
| VFloat (f : float64).

Record Metric : Type := {
  measurement : string;
  fields : gmap string value;
  tags : gmap string string
}.

Definition Accumulator : Type := list Metric.

Definition M (A : Type) : Type := Accumulator -> Accumulator * result A.

Definition ret {A} (a : A) : M A := fun acc => (acc, Ok a).

Definition bind {A B} (c : M A) (k : A -> M B) : M B :=
  fun acc =>
    match c acc with
    | (acc', Ok a) => k a acc'
    | (acc', Err e) => (acc', Err e)
    | (acc', Panic p) => (acc', Panic p)
    end.

Definition throw {A} (e : error) : M A := fun acc => (acc, Err e).

Definition lift {A} (r : result A) : M A := fun acc => (acc, r).

Notation "'let!' x ':=' c 'in' k" := (bind c (fun x => k))
  (at level 10, x pattern, c at level 100, k at level 200, only parsing).

(** [acc.AddFields(measurement, fields, tags)]: the metric is built from the
    maps as they are at the call. *)
Definition AddFields (name : string) (fs : gmap string value)
    (ts : gmap string string) : M unit :=
  fun acc => (acc ++ [{| measurement := name; fields := fs; tags := ts |}], Ok tt).

(** [xs[i]] on a slice: a panic when [i] is out of range. *)
Definition index {A} (xs : list A) (i : nat) : result A :=
  match xs !! i with
  | Some x => Ok x
  | None => Panic (index_out_of_range i (length xs))
  end.

(** ** convertToUint64 *)

Fixpoint convertToUint64_loop (line rest : list string) (nline : list Z)
    : result (list Z) :=
  match rest with
  | [] => Ok nline
  | l :: rest' =>
      match ParseUint l with
      | (val, Some ErrRange) => Err (errrange line l val)
      | (val, _) => convertToUint64_loop line rest' (nline ++ [val])
      end
  end.

Definition convertToUint64 (line : list string) : result (list Z) :=
  if (length line <? 2)%nat then Ok []
  else convertToUint64_loop line (tail line) [].

(** ** The plugin's state and Init *)

Record NFSClient : Type := {
  Fullstat : bool;
  IncludeMounts : list string;
  ExcludeMounts : list string;
  IncludeOperations : list string;
  ExcludeOperations : list string;
  nfs3Ops : gmap string bool;
  nfs4Ops : gmap string bool;
  includeMountRegex : list Regexp;
  excludeMountRegex : list Regexp
}.

Definition set_Ops (n : NFSClient) (ops3 ops4 : gmap string bool) : NFSClient :=
  {| Fullstat := Fullstat n;
     IncludeMounts := IncludeMounts n; ExcludeMounts := ExcludeMounts n;
     IncludeOperations := IncludeOperations n;
     ExcludeOperations := ExcludeOperations n;
     nfs3Ops := ops3; nfs4Ops := ops4;
     includeMountRegex := includeMountRegex n;
     excludeMountRegex := excludeMountRegex n |}.

Definition set_includeMountRegex (n : NFSClient) (rs : list Regexp) : NFSClient :=
  {| Fullstat := Fullstat n;
     IncludeMounts := IncludeMounts n; ExcludeMounts := ExcludeMounts n;
     IncludeOperations := IncludeOperations n;
     ExcludeOperations := ExcludeOperations n;
     nfs3Ops := nfs3Ops n; nfs4Ops := nfs4Ops n;
     includeMountRegex := rs;
     excludeMountRegex := excludeMountRegex n |}.

Definition set_excludeMountRegex (n : NFSClient) (rs : list Regexp) : NFSClient :=
  {| Fullstat := Fullstat n;
     IncludeMounts := IncludeMounts n; ExcludeMounts := ExcludeMounts n;
     IncludeOperations := IncludeOperations n;
     ExcludeOperations := ExcludeOperations n;
     nfs3Ops := nfs3Ops n; nfs4Ops := nfs4Ops n;
     includeMountRegex := includeMountRegex n;
     excludeMountRegex := rs |}.

Definition nfs3Fields : list string :=
  [ "NULL"; "GETATTR"; "SETATTR"; "LOOKUP"; "ACCESS"; "READLINK"; "READ";
    "WRITE"; "CREATE"; "MKDIR"; "SYMLINK"; "MKNOD"; "REMOVE"; "RMDIR";
    "RENAME"; "LINK"; "READDIR"; "READDIRPLUS"; "FSSTAT"; "FSINFO";
    "PATHCONF"; "COMMIT" ].

Definition nfs4Fields : list string :=
  [ "NULL"; "READ"; "WRITE"; "COMMIT"; "OPEN"; "OPEN_CONFIRM"; "OPEN_NOATTR";
    "OPEN_DOWNGRADE"; "CLOSE"; "SETATTR"; "FSINFO"; "RENEW"; "SETCLIENTID";
    "SETCLIENTID_CONFIRM"; "LOCK"; "LOCKT"; "LOCKU"; "ACCESS"; "GETATTR";
    "LOOKUP"; "LOOKUP_ROOT"; "REMOVE"; "RENAME"; "LINK"; "SYMLINK"; "CREATE";
    "PATHCONF"; "STATFS"; "READLINK"; "READDIR"; "SERVER_CAPS"; "DELEGRETURN";
    "GETACL"; "SETACL"; "FS_LOCATIONS"; "RELEASE_LOCKOWNER"; "SECINFO";
    "FSID_PRESENT"; "EXCHANGE_ID"; "CREATE_SESSION"; "DESTROY_SESSION";
    "SEQUENCE"; "GET_LEASE_TIME"; "RECLAIM_COMPLETE"; "LAYOUTGET";
    "GETDEVICEINFO"; "LAYOUTCOMMIT"; "LAYOUTRETURN"; "SECINFO_NO_NAME";
    "TEST_STATEID"; "FREE_STATEID"; "GETDEVICELIST"; "BIND_CONN_TO_SESSION";
    "DESTROY_CLIENTID"; "SEEK"; "ALLOCATE"; "DEALLOCATE"; "LAYOUTSTATS";
    "CLONE"; "COPY"; "OFFLOAD_CANCEL"; "LOOKUPP"; "LAYOUTERROR";
    "COPY_NOTIFY"; "GETXATTR"; "SETXATTR"; "LISTXATTRS"; "REMOVEXATTR" ].

(** [m[k]] on a [map[string]bool]. *)
Definition mapGet (m : gmap string bool) (k : string) : bool :=
  default false (m !! k).

(** [for _, Op := range ops { m[Op] = true }] *)
Definition setOps (ops : list string) (m : gmap string bool) : gmap string bool :=
  foldl (fun m Op => <[Op := true]> m) m ops.

(** [if m[Op] { delete(m, Op) }] *)
Definition excludeOp (m : gmap string bool) (Op : string) : gmap string bool :=
  if mapGet m Op then delete Op m else m.

(** [for _, Op := range n.ExcludeOperations { ... }] on one of the two
    maps: the body of the loop treats [nfs3Ops] and [nfs4Ops] apart. *)
Definition excludeOps (ops : list string) (m : gmap string bool) : gmap string bool :=
  foldl excludeOp m ops.

Section Init.

(** [regexp.Compile]: [None] on a pattern that does not compile. *)
Variable Compile : string -> option Regexp.

Fixpoint compilePatterns (mkerr : string -> error) (patterns : list string)
    (compiled : list Regexp) : list Regexp * option error :=
  match patterns with
  | [] => (compiled, None)
  | pattern :: rest =>
      match Compile pattern with
      | None => (compiled, Some (mkerr pattern))
      | Some r => compilePatterns mkerr rest (compiled ++ [r])
      end
  end.

(** [Init]: the plugin after the call, and the error returned. The
    logging and [mountstatsPath] are left out. *)
Definition Init (n : NFSClient) : NFSClient * option error :=
  let ops3 : gmap string bool := ∅ in
  let ops4 : gmap string bool := ∅ in
  let '(ops3, ops4) :=
    if (length (IncludeOperations n) =? 0)%nat
    then (setOps nfs3Fields ops3, setOps nfs4Fields ops4)
    else (setOps (IncludeOperations n) ops3, setOps (IncludeOperations n) ops4) in
  let '(ops3, ops4) :=
    if (0 <? length (ExcludeOperations n))%nat
    then (excludeOps (ExcludeOperations n) ops3,
          excludeOps (ExcludeOperations n) ops4)
    else (ops3, ops4) in
  let n := set_Ops n ops3 ops4 in
  let '(n, err) :=
    if (0 <? length (IncludeMounts n))%nat
    then
      let '(rs, err) := compilePatterns bad_include_pattern (IncludeMounts n) [] in
      (set_includeMountRegex n rs, err)
    else (n, None) in
  match err with
  | Some e => (n, Some e)
  | None =>
      if (0 <? length (ExcludeMounts n))%nat
      then
        let '(rs, err) := compilePatterns bad_exclude_pattern (ExcludeMounts n) [] in
        (set_excludeMountRegex n rs, err)
      else (n, None)
  end.

End Init.

(** ** parseStat *)

Definition eventsFields : list string :=
  [ "inoderevalidates"; "dentryrevalidates"; "datainvalidates";
    "attrinvalidates"; "vfsopen"; "vfslookup"; "vfsaccess"; "vfsupdatepage";
    "vfsreadpage"; "vfsreadpages"; "vfswritepage"; "vfswritepages";
    "vfsgetdents"; "vfssetattr"; "vfsflush"; "vfsfsync"; "vfslock";
    "vfsrelease"; "congestionwait"; "setattrtrunc"; "extendwrite";
    "sillyrenames"; "shortreads"; "shortwrites"; "delay"; "pnfsreads";
    "pnfswrites" ].

Definition bytesFields : list string :=
  [ "normalreadbytes"; "normalwritebytes"; "directreadbytes";
    "directwritebytes"; "serverreadbytes"; "serverwritebytes"; "readpages";
    "writepages" ].

Definition xprtudpFields : list string :=
  [ "bind_count"; "rpcsends"; "rpcreceives"; "badxids"; "inflightsends";
    "backlogutil" ].

Definition xprttcpFields : list string :=
  [ "bind_count"; "connect_count"; "connect_time"; "idle_time"; "rpcsends";
    "rpcreceives"; "badxids"; "inflightsends"; "backlogutil" ].

Definition nfsopFields : list string :=
  [ "ops"; "trans"; "timeouts"; "bytes_sent"; "bytes_recv"; "queue_time";
    "response_time"; "total_time"; "errors" ].

(** [for i, t := range names { fields[t] = nline[i+off] }], from index [i] on. *)
Fixpoint assignFields (names : list string) (i off : nat) (nline : list Z)
    (fs : gmap string value) : M (gmap string value) :=
  match names with
  | [] => ret fs
  | t :: names' =>
      let! v := lift (index nline (i + off)) in
      assignFields names' (S i) off nline (<[t := VUint v]> fs)
  end.

(** [for i, t := range nline { fields[nfsopFields[i]] = t }], from index [i] on. *)
Fixpoint assignOps (nline : list Z) (i : nat) (fs : gmap string value)
    : M (gmap string value) :=
  match nline with
  | [] => ret fs
  | t :: nline' =>
      let! name := lift (index nfsopFields i) in
      assignOps nline' (S i) (<[name := VUint t]> fs)
  end.

(** The first [switch]: the basic statistics of READ and WRITE. The maps
    [fields] and [tags] go in and come out, as the rest of the function
    sees what this block wrote into them. *)
Definition basicStat (first : string) (nline : list Z)
    (fs : gmap string value) (ts : gmap string string)
    : M (gmap string value * gmap string string) :=
  if (first =? "READ")%string || (first =? "WRITE")%string then
    let! n0 := lift (index nline 0) in
    let fs := <["ops" := VUint n0]> fs in
    let! n1 := lift (index nline 1) in
    let! n0 := lift (index nline 0) in
    let fs := <["retrans" := VUint (wrap64 (n1 - n0))]> fs in
    let! n3 := lift (index nline 3) in
    let! n4 := lift (index nline 4) in
    let fs := <["bytes" := VUint (wrap64 (n3 + n4))]> fs in
    let! n6 := lift (index nline 6) in
    let fs := <["rtt" := VUint n6]> fs in
    let! n7 := lift (index nline 7) in
    let fs := <["exe" := VUint n7]> fs in
    let fs := <["rtt_per_op" := VFloat float64_zero]> fs in
    let! n0 := lift (index nline 0) in
    let! fs :=
      (if 0 <? n0 then
         let! n6 := lift (index nline 6) in
         let! n0 := lift (index nline 0) in
         ret (<["rtt_per_op" :=
                  VFloat (float64_div (float64_of_uint64 n6)
                                      (float64_of_uint64 n0))]> fs)
       else ret fs) in
    let ts := <["operation" := first]> ts in
    let! _ := AddFields "nfsstat" fs ts in
    ret (fs, ts)
  else ret (fs, ts).

(** The [switch] under [n.Fullstat]: events, bytes and xprt. *)
Definition fullStat (first : string) (line : list string) (nline : list Z)
    (fs : gmap string value) (ts : gmap string string)
    : M (gmap string value) :=
  if (first =? "events")%string then
    if (length eventsFields <=? length nline)%nat then
      let! fs := assignFields eventsFields 0 0 nline fs in
      let! _ := AddFields "nfs_events" fs ts in
      ret fs
    else ret fs
  else if (first =? "bytes")%string then
    if (length bytesFields <=? length nline)%nat then
      let! fs := assignFields bytesFields 0 0 nline fs in
      let! _ := AddFields "nfs_bytes" fs ts in
      ret fs
    else ret fs
  else if (first =? "xprt")%string then
    if (1 <? length line)%nat then
      let! l1 := lift (index line 1) in
      if (l1 =? "tcp")%string then
        if (length xprttcpFields <=? length nline + 2)%nat then
          let! fs := assignFields xprttcpFields 0 2 nline fs in
          let! _ := AddFields "nfs_xprt_tcp" fs ts in
          ret fs
        else ret fs
      else if (l1 =? "udp")%string then
        if (length xprtudpFields <=? length nline + 2)%nat then
          let! fs := assignFields xprtudpFields 0 2 nline fs in
          let! _ := AddFields "nfs_xprt_udp" fs ts in
          ret fs
        else ret fs
      else ret fs
    else ret fs
  else ret fs.

(** [(version == "3" && n.nfs3Ops[first]) || (version == "4" && n.nfs4Ops[first])] *)
Definition tracked (n : NFSClient) (version first : string) : bool :=
  ((version =? "3")%string && mapGet (nfs3Ops n) first) ||
  ((version =? "4")%string && mapGet (nfs4Ops n) first).

(** The per-operation statistics, the last block under [n.Fullstat]. *)
Definition opsStat (n : NFSClient) (version first : string) (nline : list Z)
    (fs : gmap string value) (ts : gmap string string) : M unit :=
  if tracked n version first then
    let ts := <["operation" := first]> ts in
    if (length nline <=? length nfsopFields)%nat then
      let! fs := assignOps nline 0 fs in
      AddFields "nfs_ops" fs ts
    else ret tt
  else ret tt.

(** What [parseStat] does once the line is converted. *)
Definition classify (n : NFSClient) (version : string) (line : list string)
    (nline : list Z) (ts : gmap string string) : M unit :=
  if (length nline =? 0)%nat then ret tt
  else
    let! l0 := lift (index line 0) in
    let first := Replace1 l0 ":" in
    let fs : gmap string value := ∅ in
    let! (fs, ts) := basicStat first nline fs ts in
    if Fullstat n then
      let! fs := fullStat first line nline fs ts in
      opsStat n version first nline fs ts
    else ret tt.

Definition parseStat (n : NFSClient) (mountpoint export version : string)
    (line : list string) : M unit :=
  let ts : gmap string string :=
    <["serverexport" := export]> (<["mountpoint" := mountpoint]> ∅) in
  let! nline := lift (convertToUint64 line) in
  classify n version line nline ts.

(** ** processText *)

Record scanState : Type := {
  mount : string;
  version : string;
  export : string
}.

Definition initState : scanState := {| mount := ""; version := ""; export := "" |}.

Definition isBlockStart (line : list string) : bool :=
  (4 <? length line)%nat && Contains "fstype" line &&
  (Contains "nfs" line || Contains "nfs4" line).

Definition isVersionLine (line : list string) : bool :=
  (5 <? length line)%nat && (Contains "(nfs)" line || Contains "(nfs4)" line).

(** The block-start and version-marker tests at the head of the loop body. *)
Definition updateState (st : scanState) (line : list string) : result scanState :=
  if isBlockStart line then
    match index line 4 with
    | Ok m =>
        match index line 1 with
        | Ok e => Ok {| mount := m; version := version st; export := e |}
        | Err e => Err e
        | Panic p => Panic p
        end
    | Err e => Err e
    | Panic p => Panic p
    end
  else if isVersionLine line then
    match index line 5 with
    | Ok l5 =>
        match index (Split l5 "/") 1 with
        | Ok v => Ok {| mount := mount st; version := v; export := export st |}
        | Err e => Err e
        | Panic p => Panic p
        end
    | Err e => Err e
    | Panic p => Panic p
    end
  else Ok st.

(** The include and exclude checks of the loop body: the value of [skip]. *)
Definition skipMount (n : NFSClient) (mount : string) : bool :=
  let skip := false in
  let skip :=
    if (0 <? length (includeMountRegex n))%nat
    then negb (existsb (fun regex => MatchString regex mount) (includeMountRegex n))
    else skip in
  if negb skip && (0 <? length (excludeMountRegex n))%nat
  then existsb (fun regex => MatchString regex mount) (excludeMountRegex n)
  else skip.

(** [fmt.Errorf("could not parseStat: %w", err)] around a call. *)
Definition wrapErr {A} (c : M A) : M A :=
  fun acc =>
    match c acc with
    | (acc', Err e) => (acc', Err (could_not_parseStat e))
    | r => r
    end.

(** One turn of the loop of [processText], on the text of one line. *)
Definition scanLine (n : NFSClient) (st : scanState) (text : string) : M scanState :=
  let line := Fields text in
  if (length line =? 0)%nat then ret st
  else
    let! st := lift (updateState st line) in
    if (mount st =? "")%string then ret st
    else if skipMount n (mount st) then ret st
    else
      let! _ := wrapErr (parseStat n (mount st) (export st) (version st) line) in
      ret st.

Fixpoint scanLoop (n : NFSClient) (st : scanState) (scanner : list string)
    : M scanState :=
  match scanner with
  | [] => ret st
  | text :: scanner' =>
      let! st := scanLine n st text in
      scanLoop n st scanner'
  end.

(** [processText]: the scanner is the list of the lines that [scanner.Text()]
    yields. *)
Definition processText (n : NFSClient) (scanner : list string) : M unit :=
  let! _ := scanLoop n initState scanner in
  ret tt.

(** ** Definitions used in the statements *)

(** The compiled form of a pattern [^s$] for a literal [s]. *)
Definition exactRegexp (s : string) : Regexp :=
  {| MatchString := String.eqb s |}.

(** Every byte of the string is a decimal digit. *)
Fixpoint allDigits (s : string) : bool :=
  match s with
  | EmptyString => true
  | String c s' => isDigit c && allDigits s'
  end.

(** The digits of [s] read after the number [n], without any bound. *)
Fixpoint decimalFrom (s : string) (n : Z) : Z :=
  match s with
  | EmptyString => n
  | String c s' => decimalFrom s' (n * 10 + (byteval c - 48))
  end.

(** The number that a string of decimal digits denotes. *)
Definition decimalValue (s : string) : Z := decimalFrom s 0.

(** A field token that is a decimal numeral above [2^64 - 1]. *)
Definition overflowing (tok : string) : Prop :=
  allDigits tok = true ∧ maxUint64 < decimalValue tok.

(** A token on which [ParseUint] reports no range error. *)
Definition noOverflow (tok : string) : Prop := (ParseUint tok).2 ≠ Some ErrRange.

(** [triple I c Q E]: from an accumulator in [I], the run of [c] leaves the
    accumulator in [I]; a normal end yields a value in [Q], a returned
    error is in [E]. *)
Definition triple {A} (I : Accumulator → Prop) (c : M A) (Q : A → Prop)
    (E : error → Prop) : Prop :=
  ∀ acc, I acc →
    I (c acc).1 ∧
    match (c acc).2 with
    | Ok a => Q a
    | Err e => E e
    | Panic _ => True
    end.

(** A metric tagged with a non-empty mount point that passes the filter. *)
Definition fromAccepted (n : NFSClient) (m : Metric) : Prop :=
  ∃ mp, tags m !! "mountpoint" = Some mp ∧ mp ≠ "" ∧ skipMount n mp = false.

(** A line that neither starts a block nor marks the version. *)
Definition statLine (text : string) : Prop :=
  isBlockStart (Fields text) = false ∧ isVersionLine (Fields text) = false.

(** The zero value [&NFSClient{}] that the plugin is registered with. *)
Definition zeroClient : NFSClient :=
  {| Fullstat := false;
     IncludeMounts := []; ExcludeMounts := [];
     IncludeOperations := []; ExcludeOperations := [];
     nfs3Ops := ∅; nfs4Ops := ∅;
     includeMountRegex := []; excludeMountRegex := [] |}.

(** The byte [c] occurs in [s]. *)
Fixpoint hasByte (c : ascii) (s : string) : bool :=
  match s with
  | EmptyString => false
  | String c' s' => Ascii.eqb c' c || hasByte c s'
  end.

(** The fields that [basicStat] writes, in the order of the assignments. *)
Definition basicFields (n0 n1 n3 n4 n6 n7 : Z) (fs : gmap string value)
    : gmap string value :=
  let fs :=
    <["rtt_per_op" := VFloat float64_zero]>
      (<["exe" := VUint n7]>
         (<["rtt" := VUint n6]>
            (<["bytes" := VUint (wrap64 (n3 + n4))]>
               (<["retrans" := VUint (wrap64 (n1 - n0))]>
                  (<["ops" := VUint n0]> fs))))) in
  if 0 <? n0
  then <["rtt_per_op" :=
           VFloat (float64_div (float64_of_uint64 n6) (float64_of_uint64 n0))]> fs
  else fs.

(** The leading token of the basic statistics. *)
Definition isReadWrite (first : string) : Prop := first = "READ" ∨ first = "WRITE".

(** The three lines of the scenario, as the specification writes them. *)
Definition scenario : list string :=
  [ "device /export mounted on /mnt with fstype nfs ...";
    "... (nfs) rpc/3 ...";
    "READ 10 10 0 100 0 50 5 0" ].

(** The same block as the kernel prints it. *)
Definition scenario_mountstats : list string :=
  [ "device /export mounted on /mnt with fstype nfs statvers=1.1";
    "	RPC iostats version: 1.0  p/v: 100003/3 (nfs)";
    "	READ: 10 10 0 100 0 50 5 0" ].

(** The floats 0.5 and 5.0. *)
Definition float64_half : float64 := S754_finite false 4503599627370496 (-53).
Definition float64_five : float64 := S754_finite false 5629499534213120 (-50).

(** The tags of the metric of the scenario. *)
Definition scenario_tags : gmap string string :=
  <["operation" := "READ"]>
    (<["serverexport" := "/export"]> (<["mountpoint" := "/mnt"]> ∅)).

(** The fields that the specification gives for the scenario. *)
Definition scenario_fields_claimed : gmap string value :=
  <["ops" := VUint 10]> (<["retrans" := VUint 0]> (<["bytes" := VUint 100]>
  (<["rtt" := VUint 50]> (<["exe" := VUint 5]>
  (<["rtt_per_op" := VFloat float64_five]> ∅))))).

(** The fields that the code computes. *)
Definition scenario_fields : gmap string value :=
  <["ops" := VUint 10]> (<["retrans" := VUint 0]> (<["bytes" := VUint 100]>
  (<["rtt" := VUint 5]> (<["exe" := VUint 0]>
  (<["rtt_per_op" := VFloat float64_half]> ∅))))).

(** The plugin after [Init] on the zero value, with full statistics on. *)
Definition fullstatClient : NFSClient :=
  (Init (λ _, None)
     {| Fullstat := true;
        IncludeMounts := []; ExcludeMounts := [];
        IncludeOperations := []; ExcludeOperations := [];
        nfs3Ops := ∅; nfs4Ops := ∅;
        includeMountRegex := []; excludeMountRegex := [] |}).1.

(** A configuration whose include list names OPEN, an operation of
    version 4 only. *)
Definition includeOpenClient : NFSClient :=
  {| Fullstat := true;
     IncludeMounts := []; ExcludeMounts := [];
     IncludeOperations := ["OPEN"]; ExcludeOperations := [];
     nfs3Ops := ∅; nfs4Ops := ∅;
     includeMountRegex := []; excludeMountRegex := [] |}.

(** ** Definitions used in the further properties *)

(** A non-empty decimal numeral within the range of [uint64]. *)
Definition numeral (tok : string) : Prop :=
  allDigits tok = true ∧ tok ≠ "" ∧ decimalValue tok ≤ maxUint64.

(** The leading tokens that the two [switch] statements of [parseStat] name. *)
Definition categoryKeys : list string :=
  ["READ"; "WRITE"; "events"; "bytes"; "xprt"].

(** The measurement names that [parseStat] passes to [AddFields]. *)
Definition measurementNames : list string :=
  ["nfsstat"; "nfs_events"; "nfs_bytes"; "nfs_xprt_tcp"; "nfs_xprt_udp"; "nfs_ops"].

(** The tags at the start of [parseStat]. *)
Definition startTags (mountpoint export : string) : gmap string string :=
  <["serverexport" := export]> (<["mountpoint" := mountpoint]> ∅).

(** The part of [s] before the first byte [c], all of [s] when there is none. *)
Fixpoint beforeByte (c : ascii) (s : string) : string :=
  match s with
  | EmptyString => EmptyString
  | String c' s' => if Ascii.eqb c' c then EmptyString else String c' (beforeByte c s')
  end.

(** A line without tokens: empty or white space only. *)
Definition blankLine (text : string) : Prop := Fields text = [].

(** What every metric of a scan looks like: one of the six measurement
    names ([nfsstat] alone when full statistics are off), the tags
    [mountpoint] and [serverexport], and no tag besides these two and
    [operation]. *)
Definition emitted (n : NFSClient) (m : Metric) : Prop :=
  measurement m ∈ measurementNames ∧
  (Fullstat n = false → measurement m = "nfsstat") ∧
  is_Some (tags m !! "mountpoint") ∧ is_Some (tags m !! "serverexport") ∧
  dom (tags m) ⊆ ({["mountpoint"; "serverexport"; "operation"]} : gset string).

(** The error of a scan that stops at a token out of range on one of the
    lines. *)
Definition rangeErrorOf (scanner : list string) (e : error) : Prop :=
  ∃ text raw,
    text ∈ scanner ∧ raw ∈ tail (Fields text) ∧
    (ParseUint raw).2 = Some ErrRange ∧
    e = could_not_parseStat (errrange (Fields text) raw maxUint64).

(** * Properties *)

(** ** ParseUint against the decimal value of a numeral *)

Lemma cutoff_eq : cutoff = 1844674407370955162.
Proof. reflexivity. Qed.

Lemma isDigit_bounds c : isDigit c = true → 0 ≤ byteval c - 48 ≤ 9.
Proof. unfold isDigit. rewrite andb_true_iff, !Z.leb_le. lia. Qed.

Lemma wrap64_bounds z : 0 ≤ wrap64 z ≤ maxUint64.
Proof.
  unfold wrap64, maxUint64.
  pose proof (Z.mod_pos_bound z two64 eq_refl) as H. unfold two64 in *. lia.
Qed.

Lemma wrap64_small z : 0 ≤ z ≤ maxUint64 → wrap64 z = z.
Proof. unfold wrap64, maxUint64, two64. intros H. apply Z.mod_small. lia. Qed.

Lemma wrap64_above z : maxUint64 < z < 2 * two64 → wrap64 z = z - two64.
Proof.
  unfold wrap64, maxUint64, two64. intros H.
  symmetry. apply (Z.mod_unique z _ 1); lia.
Qed.

Lemma wrap64_below z : - two64 ≤ z < 0 → wrap64 z = z + two64.
Proof.
  unfold wrap64, two64. intros H.
  symmetry. apply (Z.mod_unique z _ (-1)); lia.
Qed.

Lemma decimalFrom_ge s : ∀ n, allDigits s = true → 0 ≤ n → n ≤ decimalFrom s n.
Proof.
  induction s as [|c s IH]; simpl; intros n Hd Hn; [lia|].
  apply andb_true_iff in Hd as [Hc Hs]. apply isDigit_bounds in Hc.
  specialize (IH (n * 10 + (byteval c - 48)) Hs). lia.
Qed.

Lemma ParseUint_digits_spec s : ∀ n,
  allDigits s = true → 0 ≤ n ≤ maxUint64 →
  ParseUint_digits s n =
    if decimalFrom s n <=? maxUint64 then (decimalFrom s n, None)
    else (maxUint64, Some ErrRange).
Proof.
  induction s as [|c s IH]; simpl; intros n Hd Hn.
  - destruct (Z.leb_spec n maxUint64); [done | lia].
  - apply andb_true_iff in Hd as [Hc Hs]. rewrite Hc.
    pose proof (isDigit_bounds _ Hc) as Hb.
    set (d := byteval c - 48) in *.
    pose proof (decimalFrom_ge s (n * 10 + d) Hs) as Hge.
    rewrite cutoff_eq. unfold maxUint64 in *.
    destruct (Z.leb_spec 1844674407370955162 n) as [Hcut|Hcut].
    { destruct (Z.leb_spec (decimalFrom s (n * 10 + d)) 18446744073709551615);
        [lia | done]. }
    rewrite (wrap64_small (n * 10)) by (unfold maxUint64; lia).
    destruct (Z.le_gt_cases (n * 10 + d) 18446744073709551615) as [Hfit|Hfit].
    + rewrite (wrap64_small (n * 10 + d)) by (unfold maxUint64; lia).
      destruct (Z.ltb_spec (n * 10 + d) (n * 10)); [lia|].
      destruct (Z.ltb_spec 18446744073709551615 (n * 10 + d)); [lia|].
      simpl. apply IH; [done | lia].
    + rewrite (wrap64_above (n * 10 + d)) by (unfold maxUint64, two64; lia).
      unfold two64.
      destruct (Z.ltb_spec (n * 10 + d - 18446744073709551616) (n * 10)); [|lia].
      simpl.
      destruct (Z.leb_spec (decimalFrom s (n * 10 + d)) 18446744073709551615);
        [lia | done].
Qed.

Lemma ParseUint_overflowing tok :
  overflowing tok → ParseUint tok = (maxUint64, Some ErrRange).
Proof.
  intros [Hd Hv]. unfold decimalValue in Hv.
  destruct tok as [|c s]; [simpl in Hv; unfold maxUint64 in Hv; lia|].
  unfold ParseUint. rewrite ParseUint_digits_spec; [|done|unfold maxUint64; lia].
  destruct (Z.leb_spec (decimalFrom (String c s) 0) maxUint64); [lia | done].
Qed.

Lemma ParseUint_numeral tok :
  allDigits tok = true → tok ≠ "" → decimalValue tok ≤ maxUint64 →
  ParseUint tok = (decimalValue tok, None).
Proof.
  intros Hd Hne Hv. unfold decimalValue in *.
  destruct tok as [|c s]; [done|].
  unfold ParseUint. rewrite ParseUint_digits_spec; [|done|unfold maxUint64; lia].
  destruct (Z.leb_spec (decimalFrom (String c s) 0) maxUint64); [done | lia].
Qed.

Lemma ParseUint_digits_range s : ∀ n,
  0 ≤ n ≤ maxUint64 → 0 ≤ (ParseUint_digits s n).1 ≤ maxUint64.
Proof.
  induction s as [|c s IH]; simpl; intros n Hn; [done|].
  destruct (isDigit c); [|simpl; unfold maxUint64; lia].
  destruct (cutoff <=? n); [simpl; unfold maxUint64; lia|].
  destruct (_ || _); [simpl; unfold maxUint64; lia|].
  apply IH, wrap64_bounds.
Qed.

Lemma ParseUint_range s : 0 ≤ (ParseUint s).1 ≤ maxUint64.
Proof.
  destruct s as [|c s]; [simpl; unfold maxUint64; lia|].
  apply ParseUint_digits_range. unfold maxUint64; lia.
Qed.



(** ** convertToUint64 *)

Lemma convertToUint64_loop_ok line rest : ∀ nline,
  Forall noOverflow rest →
  convertToUint64_loop line rest nline = Ok (nline ++ map (λ t, (ParseUint t).1) rest).
Proof.
  induction rest as [|l rest IH]; simpl; intros nline Hall.
  - by rewrite app_nil_r.
  - inversion Hall as [|? ? Hl Hrest]; subst. unfold noOverflow in Hl.
    destruct (ParseUint l) as [val [[]|]] eqn:E; simpl in *; try done;
      rewrite IH by done; by rewrite <- app_assoc.
Qed.

Lemma convertToUint64_loop_err line rest : ∀ nline tok,
  tok ∈ rest → (ParseUint tok).2 = Some ErrRange →
  ∃ raw, raw ∈ rest ∧ (ParseUint raw).2 = Some ErrRange ∧
    convertToUint64_loop line rest nline = Err (errrange line raw (ParseUint raw).1).
Proof.
  induction rest as [|l rest IH]; simpl; intros nline tok Hin Htok.
  - by apply elem_of_nil in Hin.
  - destruct (ParseUint l) as [val [[]|]] eqn:E.
    + apply elem_of_cons in Hin as [->|Hin]; [rewrite E in Htok; done|].
      destruct (IH (nline ++ [val]) tok Hin Htok) as (raw & ? & ? & ?).
      exists raw. split_and!; [by right | done | done].
    + exists l. rewrite E. split_and!; [by left | done | done].
    + apply elem_of_cons in Hin as [->|Hin]; [rewrite E in Htok; done|].
      destruct (IH (nline ++ [val]) tok Hin Htok) as (raw & ? & ? & ?).
      exists raw. split_and!; [by right | done | done].
Qed.

(** ** Reasoning about runs in [M] *)

Section Triples.
Context {A B : Type} (I : Accumulator → Prop) (E : error → Prop).

Lemma triple_ret (a : A) (Q : A → Prop) : Q a → triple I (ret a) Q E.
Proof. intros Ha acc Hacc. by split. Qed.

Lemma triple_lift (r : result A) (Q : A → Prop) :
  match r with Ok a => Q a | Err e => E e | Panic _ => True end →
  triple I (lift r) Q E.
Proof. intros Hr acc Hacc. by split. Qed.

Lemma triple_index (xs : list A) i : triple I (lift (index xs i)) (λ _, True) E.
Proof. apply triple_lift. unfold index. by destruct (xs !! i). Qed.

Lemma triple_bind (c : M A) (k : A → M B) (Q : A → Prop) (R : B → Prop) :
  triple I c Q E → (∀ a, Q a → triple I (k a) R E) → triple I (bind c k) R E.
Proof.
  intros Hc Hk acc Hacc. unfold bind.
  destruct (Hc acc Hacc) as [HI HQ].
  destruct (c acc) as [acc' [a|e|p]]; simpl in *; [|done..].
  by apply Hk.
Qed.

Lemma triple_weaken (c : M A) (Q Q' : A → Prop) :
  triple I c Q E → (∀ a, Q a → Q' a) → triple I c Q' E.
Proof.
  intros Hc Himp acc Hacc. destruct (Hc acc Hacc) as [HI HQ].
  split; [done|]. destruct (c acc).2; auto.
Qed.
End Triples.

Lemma triple_AddFields I E name fs ts :
  (∀ acc, I acc → I (acc ++ [{| measurement := name; fields := fs; tags := ts |}])) →
  triple I (AddFields name fs ts) (λ _, True) E.
Proof. intros H acc Hacc. split; [by apply H | done]. Qed.

Lemma triple_wrapErr {A} I (E E' : error → Prop) (c : M A) Q :
  triple I c Q E → (∀ e, E e → E' (could_not_parseStat e)) →
  triple I (wrapErr c) Q E'.
Proof.
  intros Hc HE acc Hacc. unfold wrapErr.
  destruct (Hc acc Hacc) as [HI HQ].
  destruct (c acc) as [acc' [a|e|p]]; simpl in *; auto.
Qed.

Lemma triple_assignFields I E names : ∀ i off nline fs,
  triple I (assignFields names i off nline fs) (λ _, True) E.
Proof.
  induction names as [|t names IH]; simpl; intros.
  - by apply triple_ret.
  - eapply triple_bind; [apply triple_index | intros; apply IH].
Qed.

Lemma triple_assignOps I E nline : ∀ i fs,
  triple I (assignOps nline i fs) (λ _, True) E.
Proof.
  induction nline as [|t nline IH]; simpl; intros.
  - by apply triple_ret.
  - eapply triple_bind; [apply triple_index | intros; apply IH].
Qed.

(** What [parseStat] emits: every metric carries tags in [T], when [T]
    holds of the tags at the start and is kept by setting [operation]. *)
Section ParseStatTriple.

Variable T : gmap string string → Prop.
Variable I : Accumulator → Prop.
Variable E : error → Prop.
Hypothesis T_operation : ∀ ts first, T ts → T (<["operation" := first]> ts).
Hypothesis I_add : ∀ acc name fs ts,
  I acc → T ts → I (acc ++ [{| measurement := name; fields := fs; tags := ts |}]).

Ltac step :=
  first
    [ apply triple_ret; done
    | apply triple_index
    | apply triple_assignFields
    | apply triple_assignOps
    | apply triple_AddFields; intros; apply I_add; auto
    | eapply triple_bind; [|intros ? ?] ].

Lemma triple_basicStat first nline fs ts :
  T ts → triple I (basicStat first nline fs ts) (λ r, T r.2) E.
Proof.
  intros Hts. unfold basicStat.
  destruct (_ || _); [|by apply triple_ret].
  repeat (eapply triple_bind; [apply triple_index | intros ? _]).
  eapply (triple_bind _ _ _ _ (λ _, True)).
  { destruct (0 <? _); repeat step. }
  intros ? _. eapply triple_bind; [step|].
  intros ? _. apply triple_ret. simpl. auto.
Qed.

Lemma triple_fullStat first line nline fs ts :
  T ts → triple I (fullStat first line nline fs ts) (λ _, True) E.
Proof.
  intros Hts. unfold fullStat.
  repeat first [ step | match goal with |- context [if ?b then _ else _] =>
                          destruct b end ].
Qed.

Lemma triple_opsStat n version first nline fs ts :
  T ts → triple I (opsStat n version first nline fs ts) (λ _, True) E.
Proof.
  intros Hts. unfold opsStat.
  repeat first [ step | match goal with |- context [if ?b then _ else _] =>
                          destruct b end ].
Qed.

Lemma triple_classify n version line nline ts :
  T ts → triple I (classify n version line nline ts) (λ _, True) E.
Proof.
  intros Hts. unfold classify.
  destruct (_ =? _)%nat; [by apply triple_ret|].
  eapply triple_bind; [apply triple_index | intros l0 _].
  eapply triple_bind; [by apply triple_basicStat | intros [fs' ts'] Hts'].
  simpl in Hts'. destruct (Fullstat n); [|by apply triple_ret].
  eapply triple_bind; [by apply triple_fullStat | intros ? _].
  by apply triple_opsStat.
Qed.

Lemma triple_parseStat n mountpoint export version line :
  T (<["serverexport" := export]> (<["mountpoint" := mountpoint]> ∅)) →
  (∀ e, convertToUint64 line = Err e → E e) →
  triple I (parseStat n mountpoint export version line) (λ _, True) E.
Proof.
  intros Hts Hconv. unfold parseStat.
  eapply (triple_bind _ _ _ _ (λ _, True)).
  - apply triple_lift. destruct (convertToUint64 line); auto.
  - intros nline _. by apply triple_classify.
Qed.

End ParseStatTriple.

(** ** The loop of processText *)

Lemma ParseUint_digits_ErrRange s : ∀ n v,
  ParseUint_digits s n = (v, Some ErrRange) → v = maxUint64.
Proof.
  induction s as [|c s IH]; simpl; intros n v H; [done|].
  destruct (isDigit c); [|done].
  destruct (cutoff <=? n); [congruence|].
  destruct (_ || _); [congruence|]. eauto.
Qed.

Lemma ParseUint_ErrRange s : (ParseUint s).2 = Some ErrRange → (ParseUint s).1 = maxUint64.
Proof.
  destruct (ParseUint s) as [v e] eqn:E. simpl. intros ->.
  destruct s as [|c s]; [done|]. by apply ParseUint_digits_ErrRange in E.
Qed.

Lemma tail_elem_length {A} (x : A) l : x ∈ tail l → (length l <? 2)%nat = false.
Proof.
  destruct l as [|a [|b l]]; simpl; intros H; try done; by apply elem_of_nil in H.
Qed.

Lemma parseStat_convert_err n mp ex v line acc e :
  convertToUint64 line = Err e → parseStat n mp ex v line acc = (acc, Err e).
Proof. intros H. unfold parseStat, bind, lift. by rewrite H. Qed.

Lemma parseStat_convert_ok n mp ex v line acc nline :
  convertToUint64 line = Ok nline →
  parseStat n mp ex v line acc =
    classify n v line nline
      (<["serverexport" := ex]> (<["mountpoint" := mp]> ∅)) acc.
Proof. intros H. unfold parseStat, bind, lift. by rewrite H. Qed.

Lemma updateState_nil st : updateState st [] = Ok st.
Proof. reflexivity. Qed.

Lemma scanLine_discard n st st' text acc :
  updateState st (Fields text) = Ok st' →
  mount st' = "" ∨ skipMount n (mount st') = true →
  scanLine n st text acc = (acc, Ok st').
Proof.
  intros Hupd Hskip. unfold scanLine.
  destruct (Fields text) as [|l0 line] eqn:HF; simpl.
  - rewrite updateState_nil in Hupd. by simplify_eq.
  - unfold bind, lift. rewrite Hupd.
    destruct (String.eqb_spec (mount st') ""); [done|].
    destruct Hskip as [? | ->]; done.
Qed.

Lemma scanLine_parse n st st' text acc :
  updateState st (Fields text) = Ok st' →
  Fields text ≠ [] → mount st' ≠ "" → skipMount n (mount st') = false →
  scanLine n st text acc =
    match parseStat n (mount st') (export st') (version st') (Fields text) acc with
    | (acc', Ok _) => (acc', Ok st')
    | (acc', Err e) => (acc', Err (could_not_parseStat e))
    | (acc', Panic p) => (acc', Panic p)
    end.
Proof.
  intros Hupd Hne Hm Hskip. unfold scanLine.
  destruct (Fields text) as [|l0 line] eqn:HF; [done|]. simpl.
  unfold bind at 1. unfold lift. rewrite Hupd.
  destruct (String.eqb_spec (mount st') ""); [done|]. rewrite Hskip.
  unfold bind, wrapErr, ret.
  by destruct (parseStat _ _ _ _ _ _) as [acc' [[]|e|p]].
Qed.

Lemma scanLoop_app n pre rest : ∀ st acc,
  scanLoop n st (pre ++ rest) acc =
    match scanLoop n st pre acc with
    | (acc1, Ok st1) => scanLoop n st1 rest acc1
    | (acc1, Err e) => (acc1, Err e)
    | (acc1, Panic p) => (acc1, Panic p)
    end.
Proof.
  induction pre as [|text pre IH]; intros st acc; [done|].
  simpl. unfold bind. destruct (scanLine n st text acc) as [acc' [st'|e|p]]; auto.
Qed.

Lemma updateState_panic_or_ok st line e : updateState st line ≠ Err e.
Proof.
  unfold updateState, index.
  repeat first [ done | match goal with
    | |- context [if ?b then _ else _] => destruct b
    | |- context [match ?x !! ?i with _ => _ end] => destruct (x !! i)
    end ].
Qed.

Lemma triple_scanLine n st text (I : Accumulator → Prop) (E : error → Prop) :
  (∀ acc name fs ts mp, I acc → mp ≠ "" → skipMount n mp = false →
     ts !! "mountpoint" = Some mp →
     I (acc ++ [{| measurement := name; fields := fs; tags := ts |}])) →
  (∀ e, convertToUint64 (Fields text) = Err e → E (could_not_parseStat e)) →
  triple I (scanLine n st text) (λ _, True) E.
Proof.
  intros HI HE. unfold scanLine.
  destruct (_ =? _)%nat; [by apply triple_ret|].
  eapply (triple_bind _ _ _ _ (λ _, True)).
  { apply triple_lift. destruct (updateState st (Fields text)) eqn:Hu; [done| |done].
    by apply updateState_panic_or_ok in Hu. }
  intros st' _.
  destruct (String.eqb_spec (mount st') "") as [|Hm]; [by apply triple_ret|].
  destruct (skipMount n (mount st')) eqn:Hskip; [by apply triple_ret|].
  eapply triple_bind; [|intros; by apply triple_ret].
  eapply (triple_wrapErr _ (λ e, convertToUint64 (Fields text) = Err e));
    [|done].
  apply (triple_parseStat (λ ts, ts !! "mountpoint" = Some (mount st'))).
  - intros ts first Hts. by rewrite lookup_insert_ne.
  - intros acc name fs ts Hacc Hts. by eapply HI.
  - rewrite lookup_insert_ne by done. by rewrite lookup_insert_eq.
  - done.
Qed.

Lemma triple_scanLoop n scanner (I : Accumulator → Prop) (E : error → Prop) :
  (∀ acc name fs ts mp, I acc → mp ≠ "" → skipMount n mp = false →
     ts !! "mountpoint" = Some mp →
     I (acc ++ [{| measurement := name; fields := fs; tags := ts |}])) →
  (∀ e, E (could_not_parseStat e)) →
  ∀ st, triple I (scanLoop n st scanner) (λ _, True) E.
Proof.
  intros HI HE. induction scanner as [|text scanner IH]; intros st; simpl.
  - by apply triple_ret.
  - eapply triple_bind; [apply triple_scanLine; auto | intros; apply IH].
Qed.

Lemma processText_fromAccepted n scanner acc :
  Forall (fromAccepted n) acc → Forall (fromAccepted n) (processText n scanner acc).1.
Proof.
  intros Hacc.
  assert (triple (Forall (fromAccepted n)) (processText n scanner) (λ _, True)
            (λ _, True)) as Ht.
  { unfold processText. eapply triple_bind; [|intros; by apply triple_ret].
    apply triple_scanLoop; [|done].
    intros a name fs ts mp Ha Hmp Hskip Hts. apply Forall_app. split; [done|].
    apply Forall_singleton. by exists mp. }
  by destruct (Ht acc Hacc).
Qed.

Lemma existsb_elem_of {A} (f : A → bool) l :
  existsb f l = true ↔ ∃ x, x ∈ l ∧ f x = true.
Proof.
  rewrite existsb_exists. by setoid_rewrite list_elem_of_In.
Qed.

Lemma existsb_false_elem_of {A} (f : A → bool) l :
  existsb f l = false ↔ ∀ x, x ∈ l → f x = false.
Proof.
  rewrite <- not_true_iff_false, existsb_elem_of. split.
  - intros H x Hx. apply not_true_iff_false. intros Hf. apply H. eauto.
  - intros H (x & Hx & Hf). rewrite (H x Hx) in Hf. done.
Qed.

Lemma skipMount_false_iff n mp :
  skipMount n mp = false ↔
    (includeMountRegex n = [] ∨
     ∃ r, r ∈ includeMountRegex n ∧ MatchString r mp = true) ∧
    (∀ r, r ∈ excludeMountRegex n → MatchString r mp = false).
Proof.
  rewrite <- existsb_elem_of, <- existsb_false_elem_of. unfold skipMount.
  destruct (includeMountRegex n) as [|r rs] eqn:Hinc.
  - change (0 <? length [])%nat with false. cbv iota. simpl negb. rewrite andb_true_l.
    destruct (excludeMountRegex n) as [|x xs]; simpl; [tauto|].
    split; [intros H; split; [by left | done] | by intros [_ ?] ].
  - change (0 <? length (r :: rs))%nat with true. cbv iota.
    destruct (existsb _ (r :: rs)) eqn:Hi; simpl negb.
    + rewrite andb_true_l.
      destruct (excludeMountRegex n) as [|x xs]; simpl length; [simpl; tauto|].
      change (0 <? S _)%nat with true. cbv iota.
      split; [intros H; split; [by right | done] | by intros [_ ?] ].
    + rewrite andb_false_l. split; [done|]. intros [[?|?] _]; done.
Qed.

(** ** Overflow aborts the scan *)

(** C3. A statistics line with a numeric field token above 2^64-1: the
    converter returns the range error (with the saturated value, and no
    slice of values), [parseStat] returns that error without emitting, and
    a scan that hands the line to [parseStat] (the mount is set and passes
    the filter) returns the wrapped error at that line, with the metrics of
    the lines before it and none of the lines after it. *)
Theorem overflow_aborts_scan (line : list string) (tok : string) :
  tok ∈ tail line → overflowing tok →
  ∃ raw, raw ∈ tail line ∧ (ParseUint raw).2 = Some ErrRange ∧
    convertToUint64 line = Err (errrange line raw maxUint64) ∧
    (∀ n mp ex v acc,
       parseStat n mp ex v line acc = (acc, Err (errrange line raw maxUint64))) ∧
    (∀ n pre text post acc acc1 st1 st2,
       Fields text = line →
       scanLoop n initState pre acc = (acc1, Ok st1) →
       updateState st1 line = Ok st2 →
       mount st2 ≠ "" → skipMount n (mount st2) = false →
       processText n (pre ++ text :: post) acc =
         (acc1, Err (could_not_parseStat (errrange line raw maxUint64)))).
Proof.
  intros Hin Hov.
  assert ((ParseUint tok).2 = Some ErrRange) as Htok
    by (by rewrite (ParseUint_overflowing tok Hov)).
  destruct (convertToUint64_loop_err line (tail line) [] tok Hin Htok)
    as (raw & Hraw & Herr & Hloop).
  rewrite (ParseUint_ErrRange raw Herr) in Hloop.
  assert (convertToUint64 line = Err (errrange line raw maxUint64)) as Hconv.
  { unfold convertToUint64. by rewrite (tail_elem_length _ _ Hin). }
  exists raw. split_and!; [done..| |].
  - intros. by apply parseStat_convert_err.
  - intros n pre text post acc acc1 st1 st2 HF Hpre Hupd Hm Hskip.
    unfold processText, bind. rewrite scanLoop_app, Hpre. simpl scanLoop.
    unfold bind. rewrite (scanLine_parse n st1 st2), HF; rewrite ?HF; try done.
    + by rewrite (parseStat_convert_err _ _ _ _ _ _ _ Hconv).
    + intros ->. by apply elem_of_nil in Hin.
Qed.

Lemma overflow_aborts_scan_witness :
  ∃ raw,
    convertToUint64 ["READ"; "1"; "18446744073709551616"; "3"] =
      Err (errrange ["READ"; "1"; "18446744073709551616"; "3"] raw maxUint64) ∧
    processText zeroClient
      ["device /export mounted on /mnt with fstype nfs";
       "READ 1 18446744073709551616 3";
       "WRITE 10 10 0 100 0 50 5 0"] [] =
      ([], Err (could_not_parseStat
                  (errrange ["READ"; "1"; "18446744073709551616"; "3"] raw
                     maxUint64))).
Proof.
  destruct (overflow_aborts_scan ["READ"; "1"; "18446744073709551616"; "3"]
              "18446744073709551616")
    as (raw & _ & _ & Hconv & _ & Hscan).
  - simpl. apply elem_of_cons. right. apply elem_of_cons. by left.
  - split; [reflexivity | vm_compute; reflexivity].
  - exists raw. split; [exact Hconv|].
    apply (Hscan zeroClient
             ["device /export mounted on /mnt with fstype nfs"]
             "READ 1 18446744073709551616 3"
             ["WRITE 10 10 0 100 0 50 5 0"] [] []
             {| mount := "/mnt"; version := ""; export := "/export" |}
             {| mount := "/mnt"; version := ""; export := "/export" |});
      [reflexivity | reflexivity | reflexivity | discriminate | reflexivity].
Defined.

(** ** Other conversion failures are swallowed *)




(** ** The mount filter *)

(** C6. The filter lets a mount path pass exactly when the include list is
    empty or one of its patterns matches, and no exclude pattern matches; a
    line scanned while the current mount is rejected adds no metric,
    whatever its content, and every metric of a scan is tagged with a
    mount that passes the filter. *)
Theorem mount_filter_accepts (n : NFSClient) (mp : string) :
  (skipMount n mp = false ↔
     (includeMountRegex n = [] ∨
      ∃ r, r ∈ includeMountRegex n ∧ MatchString r mp = true) ∧
     (∀ r, r ∈ excludeMountRegex n → MatchString r mp = false)) ∧
  (∀ st st' text acc,
     updateState st (Fields text) = Ok st' → mount st' = mp →
     skipMount n mp = true →
     scanLine n st text acc = (acc, Ok st')) ∧
  (∀ scanner m,
     m ∈ (processText n scanner []).1 →
     ∃ mp', tags m !! "mountpoint" = Some mp' ∧ skipMount n mp' = false).
Proof.
  split_and!.
  - apply skipMount_false_iff.
  - intros st st' text acc Hupd <- Hskip. apply scanLine_discard; auto.
  - intros scanner m Hm.
    pose proof (processText_fromAccepted n scanner [] (Forall_nil_2 _)) as H.
    rewrite Forall_forall in H. destruct (H m Hm) as (mp' & ? & ? & ?). eauto.
Qed.

Lemma mount_filter_accepts_witness :
  skipMount
    {| Fullstat := false;
       IncludeMounts := ["^/mnt$"]; ExcludeMounts := ["^/srv$"];
       IncludeOperations := []; ExcludeOperations := [];
       nfs3Ops := ∅; nfs4Ops := ∅;
       includeMountRegex := [exactRegexp "/mnt"];
       excludeMountRegex := [exactRegexp "/srv"] |} "/mnt" = false.
Proof.
  apply mount_filter_accepts. split.
  - right. exists (exactRegexp "/mnt"). split; [by left | reflexivity].
  - intros r Hr. apply elem_of_cons in Hr as [-> | Hr]; [reflexivity|].
    by apply elem_of_nil in Hr.
Defined.

(** ** Lines before the first mount *)

(** C7. While no mount is set, a line is dropped by the loop: nothing is
    filtered, converted or classified, no metric is added and no error or
    panic can come from its fields; a scan that starts with such lines is
    the scan of the rest; and no metric of a scan is tagged with the empty
    mount. *)
Theorem lines_before_mount_discarded (n : NFSClient) :
  (∀ st st' text acc,
     updateState st (Fields text) = Ok st' → mount st' = "" →
     scanLine n st text acc = (acc, Ok st')) ∧
  (∀ pre rest acc,
     Forall statLine pre →
     processText n (pre ++ rest) acc = processText n rest acc) ∧
  (∀ scanner m,
     m ∈ (processText n scanner []).1 →
     ∃ mp, tags m !! "mountpoint" = Some mp ∧ mp ≠ "").
Proof.
  split_and!.
  - intros st st' text acc Hupd Hm. apply scanLine_discard; auto.
  - intros pre rest acc Hpre. unfold processText, bind.
    rewrite scanLoop_app.
    assert (scanLoop n initState pre acc = (acc, Ok initState)) as ->; [|done].
    induction Hpre as [|text pre [Hb Hv] _ IH]; [done|].
    simpl. unfold bind.
    rewrite (scanLine_discard n initState initState); [done| |by left].
    unfold updateState. by rewrite Hb, Hv.
  - intros scanner m Hm.
    pose proof (processText_fromAccepted n scanner [] (Forall_nil_2 _)) as H.
    rewrite Forall_forall in H. destruct (H m Hm) as (mp' & ? & ? & ?). eauto.
Qed.

Lemma lines_before_mount_discarded_witness :
  processText zeroClient
    ["READ 1 2 3"; "WRITE 1 18446744073709551616"; "xprt: tcp 1 2 3 4 5 6"] [] =
  ([], Ok tt).
Proof.
  pose proof (proj1 (proj2 (lines_before_mount_discarded zeroClient))
    ["READ 1 2 3"; "WRITE 1 18446744073709551616"; "xprt: tcp 1 2 3 4 5 6"]
    [] []) as H.
  simpl app in H. rewrite H; [reflexivity|].
  repeat constructor.
Defined.

(** ** The version marker *)

Lemma Split_from_no_sep sep s : ∀ cur,
  hasByte sep s = false → length (Split_from cur s sep) = 1%nat.
Proof.
  induction s as [|c s IH]; simpl; intros cur H; [done|].
  apply orb_false_iff in H as [-> Hs]. by apply IH.
Qed.

Lemma index_singleton_1 {A} (xs : list A) :
  length xs = 1%nat → index xs 1 = Panic (index_out_of_range 1 1).
Proof. destruct xs as [|x [|y xs]]; by intros. Qed.

Lemma updateState_version_panic st line l5 :
  isBlockStart line = false → isVersionLine line = true →
  line !! 5%nat = Some l5 → hasByte "/" l5 = false →
  updateState st line = Panic (index_out_of_range 1 1).
Proof.
  intros Hb Hv H5 Hs. unfold updateState. rewrite Hb, Hv.
  unfold index at 1. rewrite H5.
  rewrite index_singleton_1; [done|]. by apply Split_from_no_sep.
Qed.

Lemma scanLine_version_panic n st text l5 acc :
  isBlockStart (Fields text) = false → isVersionLine (Fields text) = true →
  Fields text !! 5%nat = Some l5 → hasByte "/" l5 = false →
  scanLine n st text acc = (acc, Panic (index_out_of_range 1 1)).
Proof.
  intros Hb Hv H5 Hs. unfold scanLine.
  destruct (Fields text) as [|l0 line] eqn:HF; [done|].
  simpl length. cbv iota beta. change (S (length line) =? 0)%nat with false.
  cbv iota. unfold bind, lift.
  by rewrite (updateState_version_panic st _ l5).
Qed.

(** C8. There is a line with the marker [(nfs)], more than 5 tokens and no
    [/] in the token at index 5 on which the scan panics, from every state
    and under every configuration: [strings.Split] yields one element and
    the element at index 1 is taken. The scan then neither completes nor
    returns an error. *)
Theorem version_without_slash_panics :
  ∃ text,
    (Contains "(nfs)" (Fields text) || Contains "(nfs4)" (Fields text)) = true ∧
    (5 < length (Fields text))%nat ∧
    (∃ l5, Fields text !! 5%nat = Some l5 ∧ hasByte "/" l5 = false ∧
           Split l5 "/" = [l5]) ∧
    (∀ n st post acc,
       scanLoop n st (text :: post) acc = (acc, Panic (index_out_of_range 1 1))) ∧
    (∀ n post acc,
       processText n (text :: post) acc = (acc, Panic (index_out_of_range 1 1))).
Proof.
  exists "RPC iostats version: 1.0 p/v: 100003 (nfs)".
  assert (∀ n st post acc,
    scanLoop n st ("RPC iostats version: 1.0 p/v: 100003 (nfs)" :: post) acc =
      (acc, Panic (index_out_of_range 1 1))) as Hloop.
  { intros. simpl. unfold bind.
    by rewrite (scanLine_version_panic n st _ "100003"). }
  split_and!; [reflexivity | vm_compute; lia | | exact Hloop |].
  - exists "100003". by split_and!.
  - intros. unfold processText, bind. by rewrite Hloop.
Qed.

(** ** READ and WRITE lines *)

Lemma basicStat_eval first n0 n1 n2 n3 n4 n5 n6 n7 rest fs ts acc :
  isReadWrite first →
  basicStat first (n0 :: n1 :: n2 :: n3 :: n4 :: n5 :: n6 :: n7 :: rest) fs ts acc =
    (acc ++ [{| measurement := "nfsstat";
                fields := basicFields n0 n1 n3 n4 n6 n7 fs;
                tags := <["operation" := first]> ts |}],
     Ok (basicFields n0 n1 n3 n4 n6 n7 fs, <["operation" := first]> ts)).
Proof.
  intros Hrw. unfold basicStat, basicFields.
  assert (((first =? "READ")%string || (first =? "WRITE")%string) = true) as ->
    by (by destruct Hrw as [-> | ->]).
  unfold bind, lift, index, AddFields, ret. simpl.
  by destruct (0 <? n0).
Qed.

Lemma fullStat_ReadWrite first line nline fs ts acc :
  isReadWrite first → fullStat first line nline fs ts acc = (acc, Ok fs).
Proof. by intros [-> | ->]. Qed.

Lemma nfsopFields_NoDup : NoDup nfsopFields.
Proof. by apply (bool_decide_unpack _); vm_compute. Qed.

(** The loop over [nline] into [fields]: it ends normally when the names
    suffice, touches only the names it uses and leaves each value under
    the name of its position. *)
Lemma assignOps_run nline : ∀ i (fs : gmap string value),
  (i + length nline ≤ length nfsopFields)%nat →
  ∃ fs' : gmap string value,
    (∀ acc, assignOps nline i fs acc = (acc, Ok fs')) ∧
    (∀ k, k ∉ take (length nline) (drop i nfsopFields) → fs' !! k = fs !! k) ∧
    (∀ j name t, nfsopFields !! (i + j)%nat = Some name → nline !! j = Some t →
                 fs' !! name = Some (VUint t)).
Proof.
  induction nline as [|t nline IH]; intros i fs Hlen.
  - exists fs. split_and!; [done | done | by intros [] ].
  - assert (i < length nfsopFields)%nat as Hi by (simpl in *; lia).
    destruct (lookup_lt_is_Some_2 nfsopFields i Hi) as [name Hname].
    destruct (IH (S i) (<[name := VUint t]> fs)) as (fs' & Hrun & Hkeep & Hpos);
      [simpl in *; lia|].
    assert (name ∉ take (length nline) (drop (S i) nfsopFields)) as Hfresh.
    { intros (j & Hj & _)%elem_of_take. rewrite lookup_drop in Hj.
      pose proof (NoDup_lookup _ _ _ _ nfsopFields_NoDup Hname Hj). lia. }
    exists fs'. split_and!.
    + intros acc. simpl. unfold bind, lift, index. rewrite Hname. apply Hrun.
    + intros k Hk. simpl length in Hk. rewrite (drop_S _ _ _ Hname) in Hk.
      simpl in Hk. apply not_elem_of_cons in Hk as [Hne Hk].
      rewrite Hkeep by done. by apply lookup_insert_ne.
    + intros [|j] name' t' Hn Ht.
      * rewrite Nat.add_0_r in Hn. simpl in Ht. simplify_eq.
        rewrite Hkeep by done. apply lookup_insert_eq.
      * simpl in Ht. apply (Hpos j); [|done].
        by replace (S i + j)%nat with (i + S j)%nat by lia.
Qed.

Lemma convertToUint64_loop_range line rest : ∀ nline r,
  convertToUint64_loop line rest nline = Ok r →
  Forall (λ z, 0 ≤ z ≤ maxUint64) nline → Forall (λ z, 0 ≤ z ≤ maxUint64) r.
Proof.
  induction rest as [|l rest IH]; simpl; intros nline r H Hall; [by simplify_eq|].
  pose proof (ParseUint_range l) as Hl.
  destruct (ParseUint l) as [val [[]|]]; try done;
    (eapply IH; [done|]; apply Forall_app; split; [done|];
     by apply Forall_singleton).
Qed.

Lemma convertToUint64_range line nline :
  convertToUint64 line = Ok nline → Forall (λ z, 0 ≤ z ≤ maxUint64) nline.
Proof.
  unfold convertToUint64. destruct (_ <? _)%nat.
  - intros [= <-]. constructor.
  - intros H. by eapply convertToUint64_loop_range.
Qed.

Lemma classify_ReadWrite n v line l0 first n0 n1 n2 n3 n4 n5 n6 n7 rest ts acc :
  line !! 0%nat = Some l0 → Replace1 l0 ":" = first → isReadWrite first →
  let nline := n0 :: n1 :: n2 :: n3 :: n4 :: n5 :: n6 :: n7 :: rest in
  let basic := {| measurement := "nfsstat";
                  fields := basicFields n0 n1 n3 n4 n6 n7 ∅;
                  tags := <["operation" := first]> ts |} in
  classify n v line nline ts acc =
    if Fullstat n
    then opsStat n v first nline (fields basic) (tags basic) (acc ++ [basic])
    else (acc ++ [basic], Ok tt).
Proof.
  intros Hl0 Hfirst Hrw nline basic. unfold classify.
  change (length nline =? 0)%nat with false. cbv iota.
  unfold bind at 1. unfold lift, index. rewrite Hl0, Hfirst.
  unfold bind at 1. unfold nline at 1. rewrite basicStat_eval by done.
  destruct (Fullstat n); [|done].
  unfold bind. by rewrite fullStat_ReadWrite.
Qed.

(** C10. On a READ or WRITE line with the 8 numeric fields that the basic
    statistics read, when the second field is below the first, the
    [retrans] of the basic metric is [field[1] - field[0]] modulo 2^64,
    which is that difference plus 2^64: a positive number, not a negative
    one and not zero. *)
Theorem retrans_wraps_around (n : NFSClient) (mp ex v : string)
    (line : list string) (l0 first : string) (nline : list Z) (a b : Z)
    (acc : Accumulator) :
  line !! 0%nat = Some l0 → Replace1 l0 ":" = first → isReadWrite first →
  convertToUint64 line = Ok nline → (8 ≤ length nline)%nat →
  nline !! 0%nat = Some a → nline !! 1%nat = Some b → b < a →
  ∃ basic rest,
    parseStat n mp ex v line acc = (acc ++ basic :: rest, Ok tt) ∧
    measurement basic = "nfsstat" ∧
    fields basic !! "retrans" = Some (VUint ((b - a) mod 2 ^ 64)) ∧
    (b - a) mod 2 ^ 64 = b - a + 2 ^ 64 ∧
    0 < b - a + 2 ^ 64 < 2 ^ 64.
Proof.
  intros Hl0 Hfirst Hrw Hconv Hlen Ha Hb Hlt.
  pose proof (convertToUint64_range _ _ Hconv) as Hrange.
  destruct nline as [|n0 [|n1 [|n2 [|n3 [|n4 [|n5 [|n6 [|n7 rest]]]]]]]];
    simpl in Hlen; try lia.
  simpl in Ha, Hb. simplify_eq.
  assert (0 ≤ a ≤ maxUint64 ∧ 0 ≤ b ≤ maxUint64) as [Hra Hrb].
  { inversion Hrange as [|? ? ? Hr1]; subst. by inversion Hr1; subst. }
  assert ((b - a) mod 2 ^ 64 = b - a + 2 ^ 64) as Hwrap.
  { change (2 ^ 64) with two64. apply wrap64_below.
    unfold maxUint64, two64 in *. lia. }
  set (first := Replace1 l0 ":") in *.
  set (basic := {| measurement := "nfsstat";
                   fields := basicFields a b n3 n4 n6 n7 ∅;
                   tags := <["operation" := first]>
                             (<["serverexport" := ex]> (<["mountpoint" := mp]> ∅)) |}).
  assert (fields basic !! "retrans" = Some (VUint ((b - a) mod 2 ^ 64))) as Hretrans.
  { simpl. unfold basicFields. destruct (0 <? a); by simplify_map_eq. }
  assert (∃ rest', parseStat n mp ex v line acc = (acc ++ basic :: rest', Ok tt))
    as [rest' Hrun].
  { rewrite (parseStat_convert_ok _ _ _ _ _ _ _ Hconv).
    rewrite (classify_ReadWrite n v line l0 first) by done.
    fold basic. destruct (Fullstat n); [|by exists []].
    unfold opsStat. destruct (tracked n v first); [|by exists []].
    destruct (Nat.leb_spec
                (length (a :: b :: n2 :: n3 :: n4 :: n5 :: n6 :: n7 :: rest))
                (length nfsopFields)) as [Hle|Hgt]; [|by exists []].
    unfold bind.
    destruct (assignOps_run (a :: b :: n2 :: n3 :: n4 :: n5 :: n6 :: n7 :: rest)
                0 (fields basic) Hle) as (fs' & -> & _).
    unfold AddFields. rewrite <- app_assoc. by eexists [_]. }
  exists basic, rest'. split_and!; try done.
  all: unfold maxUint64 in *; lia.
Qed.

Lemma retrans_wraps_around_witness :
  ∃ basic rest,
    parseStat zeroClient "/mnt" "/export" "3"
      ["READ:"; "10"; "4"; "0"; "100"; "0"; "50"; "5"; "0"] [] =
      ([] ++ basic :: rest, Ok tt) ∧
    fields basic !! "retrans" = Some (VUint 18446744073709551610).
Proof.
  destruct (retrans_wraps_around zeroClient "/mnt" "/export" "3"
              ["READ:"; "10"; "4"; "0"; "100"; "0"; "50"; "5"; "0"]
              "READ:" "READ" [10; 4; 0; 100; 0; 50; 5; 0] 10 4 [])
    as (basic & rest & Hrun & _ & Hretrans & _);
    [reflexivity | reflexivity | by left | reflexivity | simpl; lia
    | reflexivity | reflexivity | lia | ].
  exists basic, rest. split; [exact Hrun | exact Hretrans].
Defined.

Lemma basicFields_lookup n0 n1 n3 n4 n6 n7 k :
  k ∈ ["retrans"; "bytes"; "rtt"; "exe"; "rtt_per_op"] →
  is_Some (basicFields n0 n1 n3 n4 n6 n7 ∅ !! k).
Proof.
  intros Hk. unfold basicFields.
  repeat (apply elem_of_cons in Hk as [-> | Hk]);
    [destruct (0 <? n0); simplify_map_eq; eauto ..|].
  by apply elem_of_nil in Hk.
Qed.

Lemma not_nfsopField k :
  k ∈ ["retrans"; "bytes"; "rtt"; "exe"; "rtt_per_op"] → k ∉ nfsopFields.
Proof.
  intros Hk. repeat (apply elem_of_cons in Hk as [-> | Hk]);
    [by apply (bool_decide_unpack _); vm_compute ..|].
  by apply elem_of_nil in Hk.
Qed.

Lemma elem_of_take_drop_names (k : string) n i (l : list string) :
  k ∈ take n (drop i l) → k ∈ l.
Proof.
  intros (j & Hj & _)%elem_of_take. rewrite lookup_drop in Hj.
  by eapply list_elem_of_lookup_2.
Qed.

(** C9. On a READ or WRITE line in full-statistics mode, for a tracked
    operation and the 8 or 9 numeric fields with which both metrics are
    emitted, the field map of the [nfs_ops] metric is the map of the basic
    metric with the operation fields written into it: it has the basic
    fields retrans, bytes, rtt, exe and rtt_per_op, with the values of the
    basic metric, and the positionally named operation fields. *)
Theorem ops_metric_keeps_basic_fields (n : NFSClient) (mp ex v : string)
    (line : list string) (l0 first : string) (nline : list Z)
    (acc : Accumulator) :
  Fullstat n = true →
  line !! 0%nat = Some l0 → Replace1 l0 ":" = first → isReadWrite first →
  tracked n v first = true →
  convertToUint64 line = Ok nline → (8 ≤ length nline ≤ 9)%nat →
  ∃ basic opsm,
    parseStat n mp ex v line acc = (acc ++ [basic; opsm], Ok tt) ∧
    measurement basic = "nfsstat" ∧ measurement opsm = "nfs_ops" ∧
    (∀ a, assignOps nline 0 (fields basic) a = (a, Ok (fields opsm))) ∧
    (∀ k, k ∈ ["retrans"; "bytes"; "rtt"; "exe"; "rtt_per_op"] →
          is_Some (fields basic !! k) ∧ fields opsm !! k = fields basic !! k) ∧
    (∀ i name t, nfsopFields !! i = Some name → nline !! i = Some t →
                 fields opsm !! name = Some (VUint t)).
Proof.
  intros Hfull Hl0 Hfirst Hrw Htr Hconv Hlen.
  rewrite (parseStat_convert_ok _ _ _ _ _ _ _ Hconv).
  destruct nline as [|n0 [|n1 [|n2 [|n3 [|n4 [|n5 [|n6 [|n7 rest]]]]]]]];
    simpl in Hlen; try lia.
  rewrite (classify_ReadWrite n v line l0 first) by done.
  rewrite Hfull. unfold opsStat. rewrite Htr.
  set (nline := n0 :: n1 :: n2 :: n3 :: n4 :: n5 :: n6 :: n7 :: rest).
  set (basic := {| measurement := "nfsstat";
                   fields := basicFields n0 n1 n3 n4 n6 n7 ∅;
                   tags := <["operation" := first]>
                             (<["serverexport" := ex]> (<["mountpoint" := mp]> ∅)) |}).
  assert (length nline ≤ length nfsopFields)%nat as Hle by (simpl; lia).
  destruct (assignOps_run nline 0 (fields basic) Hle) as (fs' & Hrun & Hkeep & Hpos).
  destruct (Nat.leb_spec (length nline) (length nfsopFields)) as [_|Hgt]; [|lia].
  unfold bind. rewrite Hrun. unfold AddFields. rewrite <- app_assoc.
  exists basic, {| measurement := "nfs_ops"; fields := fs'; tags := tags basic |}.
  split_and!; [done..| |].
  - intros k Hk. split; [by apply basicFields_lookup|]. simpl.
    apply Hkeep. intros Hin%elem_of_take_drop_names. by apply not_nfsopField in Hk.
  - intros i name t Hi Ht. by apply (Hpos i).
Qed.

Lemma ops_metric_keeps_basic_fields_witness :
  ∃ basic opsm,
    parseStat
      {| Fullstat := true;
         IncludeMounts := []; ExcludeMounts := [];
         IncludeOperations := []; ExcludeOperations := [];
         nfs3Ops := {["READ" := true]}; nfs4Ops := ∅;
         includeMountRegex := []; excludeMountRegex := [] |}
      "/mnt" "/export" "3"
      ["READ:"; "10"; "12"; "0"; "100"; "200"; "1"; "50"; "60"; "0"] [] =
      ([] ++ [basic; opsm], Ok tt) ∧
    fields opsm !! "retrans" = fields basic !! "retrans" ∧
    is_Some (fields basic !! "retrans").
Proof.
  destruct (ops_metric_keeps_basic_fields
              {| Fullstat := true;
                 IncludeMounts := []; ExcludeMounts := [];
                 IncludeOperations := []; ExcludeOperations := [];
                 nfs3Ops := {["READ" := true]}; nfs4Ops := ∅;
                 includeMountRegex := []; excludeMountRegex := [] |}
              "/mnt" "/export" "3"
              ["READ:"; "10"; "12"; "0"; "100"; "200"; "1"; "50"; "60"; "0"]
              "READ:" "READ" [10; 12; 0; 100; 200; 1; 50; 60; 0] [])
    as (basic & opsm & Hrun & _ & _ & _ & Hkeys & _);
    [reflexivity | reflexivity | reflexivity | by left | reflexivity
    | reflexivity | simpl; lia | ].
  exists basic, opsm. split; [exact Hrun|].
  destruct (Hkeys "retrans") as [Hsome Heq]; [by left|].
  split; [exact Heq | exact Hsome].
Defined.

(** ** The operation tables of Init *)

Lemma mapGet_setOps ops : ∀ (m : gmap string bool) k,
  mapGet (setOps ops m) k = true ↔ k ∈ ops ∨ mapGet m k = true.
Proof.
  unfold setOps. induction ops as [|op ops IH]; simpl; intros m k.
  - rewrite elem_of_nil. tauto.
  - rewrite IH, elem_of_cons. unfold mapGet.
    destruct (decide (op = k)) as [->|Hne].
    + rewrite lookup_insert_eq. simpl. tauto.
    + rewrite lookup_insert_ne by done. split; [tauto|].
      intros [[?|?]|?]; [by subst | tauto | tauto].
Qed.

Lemma mapGet_excludeOp (m : gmap string bool) op k :
  mapGet (excludeOp m op) k = true ↔ mapGet m k = true ∧ k ≠ op.
Proof.
  unfold excludeOp. destruct (mapGet m op) eqn:Hop.
  - unfold mapGet. destruct (decide (op = k)) as [->|Hne].
    + rewrite lookup_delete_eq. simpl. split; [done | tauto].
    + rewrite lookup_delete_ne by done. split; [|tauto]. intros ?. split; [done|].
      by intros ->.
  - split; [|tauto]. intros Hk. split; [done|]. intros ->. congruence.
Qed.

Lemma mapGet_excludeOps ops : ∀ (m : gmap string bool) k,
  mapGet (excludeOps ops m) k = true ↔ mapGet m k = true ∧ k ∉ ops.
Proof.
  unfold excludeOps. induction ops as [|op ops IH]; simpl; intros m k.
  - rewrite elem_of_nil. tauto.
  - rewrite IH, mapGet_excludeOp, not_elem_of_cons. tauto.
Qed.

Lemma Init_Ops Compile n :
  let n' := (Init Compile n).1 in
  let base3 := if (length (IncludeOperations n) =? 0)%nat
               then nfs3Fields else IncludeOperations n in
  let base4 := if (length (IncludeOperations n) =? 0)%nat
               then nfs4Fields else IncludeOperations n in
  nfs3Ops n' = excludeOps (ExcludeOperations n) (setOps base3 ∅) ∧
  nfs4Ops n' = excludeOps (ExcludeOperations n) (setOps base4 ∅).
Proof.
  unfold Init.
  destruct (length (IncludeOperations n) =? 0)%nat;
    destruct (ExcludeOperations n) as [|x xs];
    cbn [length Nat.ltb Nat.leb set_Ops IncludeMounts ExcludeMounts];
    repeat match goal with
      | |- context [if ?b then _ else _] => destruct b
      | |- context [compilePatterns ?a ?b ?c ?d] =>
          destruct (compilePatterns a b c d) as [? [?|]]
      end; done.
Qed.

(** C4, as the code has it. With a non-empty include list, an operation
    name is tracked for version 3, and likewise for version 4, exactly when
    it is in the include list and not in the exclude list; the lists of the
    names of a version are not consulted. *)
Theorem include_list_tracked (Compile : string → option Regexp)
    (n : NFSClient) (op : string) :
  IncludeOperations n ≠ [] →
  let n' := (Init Compile n).1 in
  (mapGet (nfs3Ops n') op = true ↔
     op ∈ IncludeOperations n ∧ op ∉ ExcludeOperations n) ∧
  (mapGet (nfs4Ops n') op = true ↔
     op ∈ IncludeOperations n ∧ op ∉ ExcludeOperations n) ∧
  (tracked n' "3" op = true ↔
     op ∈ IncludeOperations n ∧ op ∉ ExcludeOperations n) ∧
  (tracked n' "4" op = true ↔
     op ∈ IncludeOperations n ∧ op ∉ ExcludeOperations n).
Proof.
  intros Hne n'. destruct (Init_Ops Compile n) as [H3 H4]. fold n' in H3, H4.
  assert ((length (IncludeOperations n) =? 0)%nat = false) as Hlen
    by (by destruct (IncludeOperations n)).
  rewrite Hlen in H3, H4.
  assert (∀ m, m = excludeOps (ExcludeOperations n) (setOps (IncludeOperations n) ∅) →
            mapGet m op = true ↔
              op ∈ IncludeOperations n ∧ op ∉ ExcludeOperations n) as Hm.
  { intros m ->. rewrite mapGet_excludeOps, mapGet_setOps.
    unfold mapGet at 1. rewrite lookup_empty. simpl. intuition congruence. }
  unfold tracked. simpl. rewrite orb_false_r.
  split_and!; by apply Hm.
Qed.

Lemma include_list_tracked_witness :
  tracked
    (Init (λ _, None)
       {| Fullstat := true;
          IncludeMounts := []; ExcludeMounts := [];
          IncludeOperations := ["READ"; "GETATTR"];
          ExcludeOperations := ["GETATTR"];
          nfs3Ops := ∅; nfs4Ops := ∅;
          includeMountRegex := []; excludeMountRegex := [] |}).1
    "3" "READ" = true.
Proof.
  apply (include_list_tracked (λ _, None)
           {| Fullstat := true;
              IncludeMounts := []; ExcludeMounts := [];
              IncludeOperations := ["READ"; "GETATTR"];
              ExcludeOperations := ["GETATTR"];
              nfs3Ops := ∅; nfs4Ops := ∅;
              includeMountRegex := []; excludeMountRegex := [] |} "READ").
  - discriminate.
  - simpl. split.
    + apply elem_of_cons. by left.
    + intros H. apply elem_of_cons in H as [H|H]; [discriminate|].
      by apply elem_of_nil in H.
Defined.

(** C4, as it is stated, fails: with the include list ["OPEN"], a name of
    version 4 only, OPEN is tracked for version 3 although it is not among
    the 22 names of version 3. (The list of version 4 has 68 names.) *)
Lemma include_list_not_intersected :
  IncludeOperations includeOpenClient ≠ [] ∧
  length nfs3Fields = 22%nat ∧ length nfs4Fields = 68%nat ∧
  ("OPEN" ∉ nfs3Fields) ∧
  tracked (Init (λ _, None) includeOpenClient).1 "3" "OPEN" = true ∧
  ¬ (tracked (Init (λ _, None) includeOpenClient).1 "3" "OPEN" = true ↔
       "OPEN" ∈ IncludeOperations includeOpenClient ∧
       ("OPEN" ∉ ExcludeOperations includeOpenClient) ∧
       "OPEN" ∈ nfs3Fields).
Proof.
  assert ("OPEN" ∉ nfs3Fields) as Hnot
    by (by apply (bool_decide_unpack _); vm_compute).
  split_and!; [discriminate | reflexivity | reflexivity | exact Hnot
              | reflexivity | ].
  intros [H _]. destruct (H eq_refl) as (_ & _ & Hin). by apply Hnot.
Qed.

(** ** The scenario of the specification *)

Lemma float64_half_eq :
  float64_div (float64_of_uint64 1) (float64_of_uint64 2) = float64_half.
Proof. reflexivity. Qed.

Lemma float64_five_eq : float64_of_uint64 5 = float64_five.
Proof. reflexivity. Qed.

Lemma classify_basic_only n v line nline ts acc :
  Fullstat n = false →
  classify n v line nline ts acc = classify zeroClient v line nline ts acc.
Proof.
  intros Hfull. unfold classify.
  destruct (_ =? _)%nat; [done|]. unfold bind.
  destruct (lift _ acc) as [acc' [l0|e|p]]; [|done..].
  destruct (basicStat _ _ _ _ acc') as [acc'' [[fs ts']|e|p]]; [|done..].
  by rewrite Hfull.
Qed.

Lemma parseStat_basic_only n mp ex v line acc :
  Fullstat n = false →
  parseStat n mp ex v line acc = parseStat zeroClient mp ex v line acc.
Proof.
  intros Hfull. unfold parseStat, bind.
  destruct (lift _ acc) as [acc' [nline|e|p]]; [|done..].
  by apply classify_basic_only.
Qed.

(** One turn of the loop on a line of a mount that passes the filter, with
    full statistics off: the state after the line is computed, and
    [parseStat] is run. *)
Ltac scan_step n :=
  erewrite (scanLine_parse n) by first [reflexivity | discriminate | assumption];
  rewrite parseStat_basic_only by assumption;
  match goal with
  | |- context [parseStat zeroClient ?mp ?ex ?v ?line ?acc] =>
      let r := eval vm_compute in (parseStat zeroClient mp ex v line acc) in
      change (parseStat zeroClient mp ex v line acc) with r
  end;
  cbv iota beta.

(** C2, as the code has it. The scenario, with full statistics off and the
    mount [/mnt] passing the filter, adds exactly one metric, [nfsstat],
    with the tags mountpoint [/mnt], serverexport [/export], operation READ
    and the fields ops 10, retrans 0, bytes 100, rtt 5, exe 0 and
    rtt_per_op 0.5: the numeric fields 6 and 7 of the line are 5 and 0. *)
Theorem scenario_basic_metric (n : NFSClient) (lines : list string) :
  Fullstat n = false → skipMount n "/mnt" = false →
  lines = scenario ∨ lines = scenario_mountstats →
  processText n lines [] =
    ([{| measurement := "nfsstat";
         fields := scenario_fields;
         tags := scenario_tags |}], Ok tt).
Proof.
  intros Hfull Hskip Hlines. unfold processText.
  destruct Hlines as [-> | ->]; unfold scenario, scenario_mountstats;
    simpl scanLoop; unfold bind.
  - scan_step n. scan_step n. scan_step n. reflexivity.
  - scan_step n. scan_step n. scan_step n. reflexivity.
Qed.

Lemma scenario_basic_metric_witness :
  processText zeroClient scenario [] =
    ([{| measurement := "nfsstat";
         fields := scenario_fields;
         tags := scenario_tags |}], Ok tt).
Proof.
  apply (scenario_basic_metric zeroClient scenario);
    [reflexivity | reflexivity | left; reflexivity].
Defined.

(** C2, as it is stated, fails: on the scenario the one metric has rtt 5,
    exe 0 and rtt_per_op 0.5, not rtt 50, exe 5 and rtt_per_op 5.0. *)
Lemma scenario_fields_not_as_claimed :
  ∃ m,
    processText zeroClient scenario [] = ([m], Ok tt) ∧
    fields m !! "rtt" = Some (VUint 5) ∧
    scenario_fields_claimed !! "rtt" = Some (VUint 50) ∧
    fields m !! "exe" = Some (VUint 0) ∧
    scenario_fields_claimed !! "exe" = Some (VUint 5) ∧
    fields m !! "rtt_per_op" = Some (VFloat float64_half) ∧
    scenario_fields_claimed !! "rtt_per_op" = Some (VFloat float64_five) ∧
    fields m ≠ scenario_fields_claimed ∧
    processText zeroClient scenario [] ≠
      ([{| measurement := "nfsstat";
           fields := scenario_fields_claimed;
           tags := scenario_tags |}], Ok tt).
Proof.
  exists {| measurement := "nfsstat"; fields := scenario_fields;
            tags := scenario_tags |}.
  assert (scenario_fields ≠ scenario_fields_claimed) as Hne.
  { intros Heq. assert (scenario_fields !! "rtt" = scenario_fields_claimed !! "rtt")
      as H by (by rewrite Heq). discriminate H. }
  split_and!; try reflexivity; [exact Hne|].
  intros Heq.
  assert (processText zeroClient scenario [] =
            ([{| measurement := "nfsstat"; fields := scenario_fields;
                 tags := scenario_tags |}], Ok tt)) as Hrun by reflexivity.
  rewrite Hrun in Heq. injection Heq as Heq. by apply Hne.
Qed.

(** ** Lines with too few fields *)

Lemma basicStat_short first nline fs ts acc :
  isReadWrite first → (0 < length nline < 8)%nat →
  ∃ i, basicStat first nline fs ts acc =
         (acc, Panic (index_out_of_range i (length nline))).
Proof.
  intros Hrw Hlen. unfold basicStat.
  assert (((first =? "READ")%string || (first =? "WRITE")%string) = true) as ->
    by (by destruct Hrw as [-> | ->]).
  destruct nline as [|n0 [|n1 [|n2 [|n3 [|n4 [|n5 [|n6 [|n7 rest]]]]]]]];
    simpl in Hlen; try lia; eexists; reflexivity.
Qed.

(** C1 fails on the code. A READ (or WRITE) line with 1 to 7 numeric fields
    makes [parseStat] panic, there being no test of the length before
    [nline[1]] .. [nline[7]] are read; an xprt tcp line with 7 to 10 values
    and an xprt udp line with 4 to 7 values pass the test
    [len(nline)+2 >= len(names)] and panic at [nline[i+2]]. The events and
    bytes lines, whose test is right, are skipped without a fault. *)
Theorem short_stat_lines_panic (n : NFSClient) (mp ex v : string)
    (acc : Accumulator) :
  parseStat n mp ex v ["READ"; "1"; "2"; "3"] acc =
    (acc, Panic (index_out_of_range 3 3)) ∧
  parseStat n mp ex v ["WRITE:"; "1"] acc =
    (acc, Panic (index_out_of_range 1 1)) ∧
  parseStat fullstatClient mp ex v
    ["xprt:"; "tcp"; "832"; "0"; "1"; "0"; "11"; "6428"] acc =
    (acc, Panic (index_out_of_range 7 7)) ∧
  parseStat fullstatClient mp ex v ["xprt:"; "udp"; "832"; "0"; "1"] acc =
    (acc, Panic (index_out_of_range 4 4)) ∧
  parseStat fullstatClient mp ex "3" ["events:"; "1"; "2"] acc = (acc, Ok tt) ∧
  parseStat fullstatClient mp ex "4" ["bytes:"; "1"; "2"] acc = (acc, Ok tt) ∧
  processText n
    ["device /export mounted on /mnt with fstype nfs"; "READ: 1 2 3";
     "WRITE: 10 10 0 100 0 50 5 0"] [] =
    (if skipMount n "/mnt" then ([], Ok tt)
     else ([], Panic (index_out_of_range 3 3))) ∧
  (∀ line l0 first nline,
     line !! 0%nat = Some l0 → Replace1 l0 ":" = first → isReadWrite first →
     convertToUint64 line = Ok nline → (0 < length nline < 8)%nat →
     ∃ i, parseStat n mp ex v line acc =
            (acc, Panic (index_out_of_range i (length nline)))).
Proof.
  split_and!;
    [vm_compute; reflexivity | vm_compute; reflexivity | vm_compute; reflexivity
    | vm_compute; reflexivity | vm_compute; reflexivity | vm_compute; reflexivity
    | | ].
  - unfold processText. simpl scanLoop. unfold bind.
    destruct (skipMount n "/mnt") eqn:Hskip.
    + do 3 (erewrite (scanLine_discard n) by
              first [reflexivity | right; exact Hskip];
            cbv iota beta).
      reflexivity.
    + erewrite (scanLine_parse n) by first [reflexivity | discriminate | assumption].
      assert (∀ a, parseStat n "/mnt" "/export" ""
                     (Fields "device /export mounted on /mnt with fstype nfs") a =
                   if Fullstat n then
                     opsStat n "" "device" [0; 0; 0; 0; 0; 0; 0] ∅
                       (<["serverexport" := "/export"]> (<["mountpoint" := "/mnt"]> ∅)) a
                   else (a, Ok tt)) as ->.
      { intros a. erewrite parseStat_convert_ok by reflexivity.
        unfold classify. simpl. unfold bind. simpl. by destruct (Fullstat n). }
      assert (∀ fs ts a,
                opsStat n "" "device" [0; 0; 0; 0; 0; 0; 0] fs ts a = (a, Ok tt))
        as Hops by done.
      rewrite Hops. destruct (Fullstat n); cbv iota beta;
        (erewrite (scanLine_parse n)
           by first [reflexivity | discriminate | assumption]);
        reflexivity.
  - intros line l0 first nline Hl0 Hfirst Hrw Hconv Hlen.
    rewrite (parseStat_convert_ok _ _ _ _ _ _ _ Hconv). unfold classify.
    destruct (Nat.eqb_spec (length nline) 0) as [|_]; [lia|].
    unfold bind at 1. unfold lift, index. rewrite Hl0, Hfirst.
    unfold bind.
    destruct (basicStat_short first nline ∅
                (<["serverexport" := ex]> (<["mountpoint" := mp]> ∅)) acc Hrw Hlen)
      as [i ->].
    by exists i.
Qed.

(** * Further properties *)

(** ** The converter *)

Lemma convertToUint64_loop_Err_iff line rest : ∀ nline e,
  convertToUint64_loop line rest nline = Err e ↔
  ∃ pre raw post,
    rest = pre ++ raw :: post ∧ Forall noOverflow pre ∧
    (ParseUint raw).2 = Some ErrRange ∧ e = errrange line raw maxUint64.
Proof.
  induction rest as [|l rest IH]; intros nline e; simpl.
  - split; [done|]. intros (pre & raw & post & H & _). by destruct pre.
  - destruct (ParseUint l) as [val err] eqn:El.
    assert (err = Some ErrRange ∨ err ≠ Some ErrRange) as [-> | Hno]
      by (destruct err as [[]|]; auto).
    + pose proof (ParseUint_ErrRange l) as Hmax. rewrite El in Hmax.
      simpl in Hmax. rewrite Hmax by done. split.
      * intros [= <-]. exists [], l, rest. rewrite El. by split_and!.
      * intros (pre & raw & post & Hrest & Hpre & Hraw & ->).
        destruct pre as [|p pre]; simpl in Hrest; simplify_eq; [done|].
        inversion Hpre as [|? ? Hp _]; subst. unfold noOverflow in Hp.
        by rewrite El in Hp.
    + assert (match err with
              | Some ErrRange => Err (errrange line l val)
              | _ => convertToUint64_loop line rest (nline ++ [val])
              end = convertToUint64_loop line rest (nline ++ [val])) as ->
        by (by destruct err as [[]|]).
      rewrite IH. split.
      * intros (pre & raw & post & -> & Hpre & Hraw & ->).
        exists (l :: pre), raw, post. split_and!; try done.
        constructor; [|done]. unfold noOverflow. by rewrite El.
      * intros (pre & raw & post & Hrest & Hpre & Hraw & ->).
        destruct pre as [|p pre]; simpl in Hrest; simplify_eq.
        { by rewrite El in Hraw. }
        exists pre, raw, post. split_and!; try done. by inversion Hpre.
Qed.

Lemma convertToUint64_loop_no_panic line rest : ∀ nline p,
  convertToUint64_loop line rest nline ≠ Panic p.
Proof.
  induction rest as [|l rest IH]; intros nline p; simpl; [done|].
  destruct (ParseUint l) as [val [[]|]]; auto.
Qed.

(** X2. The converter returns an error exactly when one of the tokens
    after the first is out of range; the error names the leftmost such
    token and the saturated value. It never panics. *)
Theorem convertToUint64_fails_iff (line : list string) (e : error) :
  (convertToUint64 line = Err e ↔
     ∃ pre raw post,
       tail line = pre ++ raw :: post ∧ Forall noOverflow pre ∧
       (ParseUint raw).2 = Some ErrRange ∧ e = errrange line raw maxUint64) ∧
  (∀ p, convertToUint64 line ≠ Panic p).
Proof.
  unfold convertToUint64. split.
  - destruct (length line <? 2)%nat eqn:Hlen.
    + split; [done|]. intros (pre & raw & post & Htail & _). exfalso.
      destruct line as [|a [|b line]]; simpl in *; try done; by destruct pre.
    + apply convertToUint64_loop_Err_iff.
  - intros p. destruct (length line <? 2)%nat; [done|].
    apply convertToUint64_loop_no_panic.
Qed.

Lemma convertToUint64_Ok_map line nline :
  convertToUint64 line = Ok nline →
  Forall noOverflow (tail line) ∧ nline = map (λ t, (ParseUint t).1) (tail line).
Proof.
  intros Hconv.
  assert (Forall noOverflow (tail line)) as Hall.
  { apply Forall_forall. intros tok Hin Hr. unfold noOverflow in *.
    destruct (convertToUint64_loop_err line (tail line) [] tok Hin) as (raw & _ & _ & Hloop).
    { by destruct (ParseUint tok).2 as [[]|]. }
    unfold convertToUint64 in Hconv. rewrite (tail_elem_length _ _ Hin) in Hconv.
    congruence. }
  split; [done|].
  unfold convertToUint64 in Hconv. destruct (length line <? 2)%nat eqn:Hlen.
  - simplify_eq. by destruct line as [|a [|b line]].
  - rewrite convertToUint64_loop_ok in Hconv by done. by simplify_eq.
Qed.

(** X1. When the converter succeeds, its result has one value per token
    after the first (none for a line of fewer than two tokens), every value
    is within [0, 2^64), each is what [ParseUint] yields for its token, and
    the first token plays no part. *)
Theorem convertToUint64_shape (line : list string) (nline : list Z) :
  convertToUint64 line = Ok nline →
  length nline = (length line - 1)%nat ∧
  Forall (λ z, 0 ≤ z < 2 ^ 64) nline ∧
  nline = map (λ t, (ParseUint t).1) (tail line) ∧
  (∀ first, convertToUint64 (first :: tail line) = Ok nline).
Proof.
  intros Hconv.
  destruct (convertToUint64_Ok_map _ _ Hconv) as [Hall Hmap].
  split_and!; [| |done|].
  - rewrite Hmap, length_map. destruct line; simpl; lia.
  - eapply Forall_impl; [by eapply convertToUint64_range|].
    simpl. unfold maxUint64. lia.
  - intros first. unfold convertToUint64. simpl tail.
    destruct (tail line) as [|b rest] eqn:Htail; [by rewrite Hmap|].
    simpl length. change (S (S (length rest)) <? 2)%nat with false. cbv iota.
    rewrite convertToUint64_loop_ok by done. by rewrite Hmap.
Qed.

Lemma convertToUint64_shape_witness :
  length [10; 0; 7] = (length ["READ:"; "10"; "x"; "7"] - 1)%nat ∧
  convertToUint64 ["WRITE"; "10"; "x"; "7"] = Ok [10; 0; 7].
Proof.
  destruct (convertToUint64_shape ["READ:"; "10"; "x"; "7"] [10; 0; 7])
    as (Hlen & _ & _ & Hfirst); [reflexivity|].
  split; [exact Hlen | exact (Hfirst "WRITE")].
Defined.

(** X3. On a line whose tokens after the first are decimal numerals within
    the range, the converter yields exactly the numbers they denote. *)
Theorem convertToUint64_numerals (line : list string) :
  Forall numeral (tail line) →
  convertToUint64 line = Ok (map decimalValue (tail line)).
Proof.
  intros Hall. unfold convertToUint64.
  destruct (length line <? 2)%nat eqn:Hlen.
  - by destruct line as [|a [|b line]].
  - rewrite convertToUint64_loop_ok.
    + simpl. f_equal. apply map_ext_Forall.
      eapply Forall_impl; [exact Hall|]. intros t (Hd & Hne & Hv). simpl.
      by rewrite ParseUint_numeral.
    + eapply Forall_impl; [exact Hall|]. intros t (Hd & Hne & Hv).
      unfold noOverflow. by rewrite ParseUint_numeral.
Qed.

Lemma convertToUint64_numerals_witness :
  convertToUint64 ["GETATTR:"; "5"; "18446744073709551615"; "007"] =
    Ok (map decimalValue ["5"; "18446744073709551615"; "007"]).
Proof.
  apply (convertToUint64_numerals ["GETATTR:"; "5"; "18446744073709551615"; "007"]).
  repeat constructor; try discriminate; vm_compute; discriminate.
Defined.

(** ** Lines that emit nothing *)

Lemma basicStat_other first nline fs ts acc :
  first ≠ "READ" → first ≠ "WRITE" →
  basicStat first nline fs ts acc = (acc, Ok (fs, ts)).
Proof.
  intros H1%String.eqb_neq H2%String.eqb_neq. unfold basicStat. by rewrite H1, H2.
Qed.

Lemma fullStat_other first line nline fs ts acc :
  first ≠ "events" → first ≠ "bytes" → first ≠ "xprt" →
  fullStat first line nline fs ts acc = (acc, Ok fs).
Proof.
  intros H1%String.eqb_neq H2%String.eqb_neq H3%String.eqb_neq.
  unfold fullStat. by rewrite H1, H2, H3.
Qed.

Lemma opsStat_untracked n v first nline fs ts acc :
  tracked n v first = false → opsStat n v first nline fs ts acc = (acc, Ok tt).
Proof. intros H. unfold opsStat. by rewrite H. Qed.

(** X4. A line of a single token (and the empty line) makes [parseStat]
    return without a metric, an error or a panic, whatever the token and
    the configuration: a lone READ is not looked into. *)
Theorem parseStat_single_token (n : NFSClient) (mp ex v tok : string)
    (acc : Accumulator) :
  parseStat n mp ex v [tok] acc = (acc, Ok tt) ∧
  parseStat n mp ex v [] acc = (acc, Ok tt).
Proof. by split. Qed.

(** X5. A line that converts, whose leading token is neither READ nor
    WRITE, adds no metric and ends normally when full statistics are off,
    and also when they are on provided the token is none of events, bytes,
    xprt and is not a tracked operation of the current version. *)
Theorem parseStat_unrecognized (n : NFSClient) (mp ex v : string)
    (line : list string) (l0 : string) (nline : list Z) (acc : Accumulator) :
  convertToUint64 line = Ok nline →
  line !! 0%nat = Some l0 →
  Replace1 l0 ":" ≠ "READ" → Replace1 l0 ":" ≠ "WRITE" →
  Fullstat n = false ∨
    ((Replace1 l0 ":" ∉ ["events"; "bytes"; "xprt"]) ∧
     tracked n v (Replace1 l0 ":") = false) →
  parseStat n mp ex v line acc = (acc, Ok tt).
Proof.
  intros Hconv Hl0 Hr Hw Hcase.
  rewrite (parseStat_convert_ok _ _ _ _ _ _ _ Hconv). unfold classify.
  destruct (length nline =? 0)%nat; [done|].
  unfold bind at 1. unfold lift, index. rewrite Hl0.
  unfold bind at 1. rewrite basicStat_other by done.
  destruct Hcase as [-> | [Hkeys Htr]]; [done|].
  destruct (Fullstat n); [|done].
  unfold bind. rewrite fullStat_other.
  - by apply opsStat_untracked.
  - intros Heq. apply Hkeys. rewrite Heq. by left.
  - intros Heq. apply Hkeys. rewrite Heq. right. by left.
  - intros Heq. apply Hkeys. rewrite Heq. right. right. by left.
Qed.

Lemma parseStat_unrecognized_witness :
  parseStat fullstatClient "/mnt" "/export" "3"
    ["device"; "/export"; "mounted"; "on"; "/mnt"; "with"; "fstype"; "nfs"] [] =
  ([], Ok tt).
Proof.
  apply (parseStat_unrecognized fullstatClient "/mnt" "/export" "3"
           ["device"; "/export"; "mounted"; "on"; "/mnt"; "with"; "fstype"; "nfs"]
           "device" [0; 0; 0; 0; 0; 0; 0]);
    [reflexivity | reflexivity | discriminate | discriminate | ].
  right. split; [|reflexivity].
  intros H. repeat (apply elem_of_cons in H as [H | H]; [discriminate|]).
  by apply elem_of_nil in H.
Defined.

(** ** Init *)

(** X6. With an empty include list the operations tracked for version 3
    are the 22 names of [nfs3Fields] that are not excluded, those for
    version 4 the 68 names of [nfs4Fields] that are not excluded; and
    under every configuration nothing is tracked while the version is
    neither "3" nor "4" (as before the first version line). *)
Theorem default_operations_tracked (Compile : string → option Regexp)
    (n : NFSClient) (op : string) :
  IncludeOperations n = [] →
  (tracked (Init Compile n).1 "3" op = true ↔
     op ∈ nfs3Fields ∧ op ∉ ExcludeOperations n) ∧
  (tracked (Init Compile n).1 "4" op = true ↔
     op ∈ nfs4Fields ∧ op ∉ ExcludeOperations n) ∧
  (∀ n' v, v ≠ "3" → v ≠ "4" → tracked n' v op = false).
Proof.
  intros Hinc. destruct (Init_Ops Compile n) as [H3 H4].
  rewrite Hinc in H3, H4. cbn [length Nat.eqb] in H3, H4. cbv iota in H3, H4.
  unfold tracked.
  change ("3" =? "3")%string with true. change ("3" =? "4")%string with false.
  change ("4" =? "3")%string with false. change ("4" =? "4")%string with true.
  cbn [andb orb]. rewrite !orb_false_r. split_and!.
  - rewrite H3, mapGet_excludeOps, mapGet_setOps.
    unfold mapGet at 1. rewrite lookup_empty. simpl. intuition congruence.
  - rewrite H4, mapGet_excludeOps, mapGet_setOps.
    unfold mapGet at 1. rewrite lookup_empty. simpl. intuition congruence.
  - intros n' v H3'%String.eqb_neq H4'%String.eqb_neq. by rewrite H3', H4'.
Qed.

Lemma default_operations_tracked_witness :
  tracked (Init (λ _, None) zeroClient).1 "4" "OPEN" = true ∧
  tracked (Init (λ _, None) zeroClient).1 "3" "OPEN" = false.
Proof.
  destruct (default_operations_tracked (λ _, None) zeroClient "OPEN")
    as (H3 & H4 & _); [reflexivity|].
  split.
  - apply H4. split; [by apply (bool_decide_unpack _); vm_compute|].
    simpl. apply not_elem_of_nil.
  - apply not_true_iff_false. intros [Hin _]%H3. revert Hin.
    by apply (bool_decide_unpack _); vm_compute.
Defined.

Lemma compilePatterns_Some Compile mkerr patterns : ∀ compiled rs,
  mapM Compile patterns = Some rs →
  compilePatterns Compile mkerr patterns compiled = (compiled ++ rs, None).
Proof.
  induction patterns as [|p patterns IH]; intros compiled rs Hm.
  - apply mapM_Some in Hm. inversion Hm; subst. cbn [compilePatterns].
    by rewrite app_nil_r.
  - apply mapM_Some in Hm. inversion Hm as [|? r ? rs' Hp Hrest]; subst.
    apply mapM_Some in Hrest. simpl. rewrite Hp.
    rewrite (IH _ rs') by done. by rewrite <- app_assoc.
Qed.

Lemma compilePatterns_None Compile mkerr pre p post : ∀ compiled rs,
  mapM Compile pre = Some rs → Compile p = None →
  compilePatterns Compile mkerr (pre ++ p :: post) compiled =
    (compiled ++ rs, Some (mkerr p)).
Proof.
  induction pre as [|q pre IH]; intros compiled rs Hm Hp.
  - apply mapM_Some in Hm. inversion Hm; subst. cbn [compilePatterns app].
    by rewrite Hp, app_nil_r.
  - apply mapM_Some in Hm. inversion Hm as [|? r ? rs' Hq Hrest]; subst.
    apply mapM_Some in Hrest. simpl. rewrite Hq.
    rewrite (IH _ rs') by done. by rewrite <- app_assoc.
Qed.

Lemma mapM_split {A B} (f : A → option B) (l : list A) :
  (∃ rs, mapM f l = Some rs) ∨
  (∃ pre p post rs, l = pre ++ p :: post ∧ mapM f pre = Some rs ∧ f p = None).
Proof.
  induction l as [|a l IH].
  - left. by exists [].
  - destruct (f a) as [b|] eqn:Ha.
    + destruct IH as [[rs Hrs] | (pre & p & post & rs & -> & Hpre & Hp)].
      * left. exists (b :: rs). apply mapM_Some. constructor; [done|].
        by apply mapM_Some.
      * right. exists (a :: pre), p, post, (b :: rs). split_and!; [done| |done].
        apply mapM_Some. constructor; [done|]. by apply mapM_Some.
    + right. by exists [], a, l, [].
Qed.

(** X7. [Init] succeeds exactly when every include and every exclude mount
    pattern compiles; then the compiled lists hold the regexps of the
    patterns in order (a compiled list stays as it was when its pattern
    list is empty). It fails at the first include pattern that does not
    compile, without looking at the exclude patterns, and otherwise at the
    first such exclude pattern. *)
Theorem Init_compiles_patterns (Compile : string → option Regexp)
    (n : NFSClient) :
  ((Init Compile n).2 = None ↔
     is_Some (mapM Compile (IncludeMounts n)) ∧
     is_Some (mapM Compile (ExcludeMounts n))) ∧
  (∀ ri re,
     mapM Compile (IncludeMounts n) = Some ri →
     mapM Compile (ExcludeMounts n) = Some re →
     includeMountRegex (Init Compile n).1 =
       (if IncludeMounts n is [] then includeMountRegex n else ri) ∧
     excludeMountRegex (Init Compile n).1 =
       (if ExcludeMounts n is [] then excludeMountRegex n else re)) ∧
  (∀ pre p post,
     IncludeMounts n = pre ++ p :: post →
     is_Some (mapM Compile pre) → Compile p = None →
     (Init Compile n).2 = Some (bad_include_pattern p) ∧
     excludeMountRegex (Init Compile n).1 = excludeMountRegex n) ∧
  (∀ pre p post,
     is_Some (mapM Compile (IncludeMounts n)) →
     ExcludeMounts n = pre ++ p :: post →
     is_Some (mapM Compile pre) → Compile p = None →
     (Init Compile n).2 = Some (bad_exclude_pattern p)).
Proof.
  assert (∀ ri, mapM Compile (IncludeMounts n) = Some ri →
    Init Compile n =
      let n1 := set_Ops n (nfs3Ops (Init Compile n).1) (nfs4Ops (Init Compile n).1) in
      let n2 := if IncludeMounts n is [] then n1 else set_includeMountRegex n1 ri in
      if (0 <? length (ExcludeMounts n))%nat
      then
        let '(rs, err) := compilePatterns Compile bad_exclude_pattern (ExcludeMounts n) [] in
        (set_excludeMountRegex n2 rs, err)
      else (n2, None)) as Hinc.
  { intros ri Hri. destruct (Init_Ops Compile n) as [H3 H4]. rewrite H3, H4.
    unfold Init.
    destruct (length (IncludeOperations n) =? 0)%nat;
      destruct (ExcludeOperations n) as [|x xs];
      cbn [length Nat.ltb Nat.leb set_Ops IncludeMounts ExcludeMounts];
      (destruct (IncludeMounts n) as [|p ps] eqn:Hps;
       [done|
        cbn [length Nat.ltb Nat.leb];
        rewrite (compilePatterns_Some _ _ _ [] ri Hri); done]). }
  assert (∀ pre p post, IncludeMounts n = pre ++ p :: post →
    is_Some (mapM Compile pre) → Compile p = None →
    (Init Compile n).2 = Some (bad_include_pattern p) ∧
    excludeMountRegex (Init Compile n).1 = excludeMountRegex n) as Hbad.
  { intros pre p post Hps [rs Hrs] Hp. unfold Init.
    destruct (length (IncludeOperations n) =? 0)%nat;
      destruct (ExcludeOperations n) as [|x xs];
      cbn [length Nat.ltb Nat.leb set_Ops IncludeMounts ExcludeMounts];
      rewrite Hps, length_app; cbn [length]; rewrite Nat.add_succ_r; cbv iota;
      rewrite (compilePatterns_None _ _ _ _ _ [] rs Hrs Hp); done. }
  split_and!; [| | exact Hbad |].
  - split.
    + intros Hok.
      destruct (mapM_split Compile (IncludeMounts n))
        as [[ri Hri] | (pre & p & post & rs & Hps & Hpre & Hp)].
      2: { destruct (Hbad pre p post Hps (mk_is_Some _ _ Hpre) Hp) as [Hb _].
           congruence. }
      split; [done|]. rewrite (Hinc ri Hri) in Hok. cbv zeta in Hok.
      destruct (ExcludeMounts n) as [|q qs] eqn:Hqs; [done|].
      destruct (mapM_split Compile (q :: qs))
        as [[re Hre] | (pre & p & post & rs & Hps & Hpre & Hp)]; [done|].
      rewrite Hps, length_app in Hok. simpl length in Hok.
      replace (0 <? length pre + S (length post))%nat with true in Hok
        by (symmetry; apply Nat.ltb_lt; lia).
      by rewrite (compilePatterns_None _ _ _ _ _ [] rs Hpre Hp) in Hok.
    + intros [[ri Hri] [re Hre]]. rewrite (Hinc ri Hri). cbv zeta.
      destruct (0 <? length (ExcludeMounts n))%nat; [|done].
      by rewrite (compilePatterns_Some _ _ _ [] re Hre).
  - intros ri re Hri Hre. rewrite (Hinc ri Hri). cbv zeta.
    destruct (ExcludeMounts n) as [|q qs] eqn:Hqs.
    + simpl. by destruct (IncludeMounts n).
    + simpl length. change (0 <? S (length qs))%nat with true. cbv iota.
      rewrite (compilePatterns_Some _ _ _ [] re Hre). simpl.
      by destruct (IncludeMounts n).
  - intros pre p post [ri Hri] Hqs [rs Hrs] Hp. rewrite (Hinc ri Hri). cbv zeta.
    rewrite Hqs, length_app. simpl length.
    replace (0 <? length pre + S (length post))%nat with true
      by (symmetry; apply Nat.ltb_lt; lia).
    by rewrite (compilePatterns_None _ _ _ _ _ [] rs Hrs Hp).
Qed.

Lemma Init_compiles_patterns_witness :
  (Init (λ p, if (p =? "(")%string then None else Some (exactRegexp p))
     {| Fullstat := false;
        IncludeMounts := ["/mnt"; "("; "/srv"]; ExcludeMounts := ["("];
        IncludeOperations := []; ExcludeOperations := [];
        nfs3Ops := ∅; nfs4Ops := ∅;
        includeMountRegex := []; excludeMountRegex := [] |}).2 =
  Some (bad_include_pattern "(").
Proof.
  apply (Init_compiles_patterns
           (λ p, if (p =? "(")%string then None else Some (exactRegexp p))
           {| Fullstat := false;
              IncludeMounts := ["/mnt"; "("; "/srv"]; ExcludeMounts := ["("];
              IncludeOperations := []; ExcludeOperations := [];
              nfs3Ops := ∅; nfs4Ops := ∅;
              includeMountRegex := []; excludeMountRegex := [] |})
    with (pre := ["/mnt"]) (post := ["/srv"]);
    [reflexivity | by eexists | reflexivity].
Defined.

(** ** The state of the scan *)

Lemma append_nonempty (s : string) c : s +:+ String c "" ≠ "".
Proof. by destruct s. Qed.

Lemma Fields_from_nonempty s : ∀ skip cur,
  (∀ f, cur = Some f → f ≠ "") →
  Forall (λ t, t ≠ "") (Fields_from skip cur s).
Proof.
  induction s as [|c s IH]; intros skip cur Hcur.
  - destruct cur as [f|]; simpl; [|constructor].
    constructor; [by apply Hcur | constructor].
  - cbn [Fields_from]. destruct skip as [|k]; [|by apply IH].
    destruct (spaceWidth (String c s)) as [|k].
    + apply IH. intros f [= <-]. apply append_nonempty.
    + destruct cur as [f|]; simpl; [|by apply IH].
      constructor; [by apply Hcur | by apply IH].
Qed.

Lemma Fields_nonempty text : Forall (λ t, t ≠ "") (Fields text).
Proof. by apply Fields_from_nonempty. Qed.

Lemma scanLine_Ok_state n st text acc acc' st' :
  scanLine n st text acc = (acc', Ok st') →
  updateState st (Fields text) = Ok st'.
Proof.
  unfold scanLine. destruct (Fields text) as [|l0 line] eqn:HF.
  - simpl. unfold ret. by intros [= _ <-].
  - cbn [length Nat.eqb]. unfold bind at 1. unfold lift.
    destruct (updateState st (l0 :: line)) as [st1|e|p]; [|done..].
    destruct (mount st1 =? "")%string; [unfold ret; by intros [= _ <-]|].
    destruct (skipMount n (mount st1)); [unfold ret; by intros [= _ <-]|].
    unfold bind, ret.
    destruct (wrapErr _ acc) as [a [[]|e|p]]; [|done..]. by intros [= _ <-].
Qed.

Lemma updateState_mount st line st' :
  Forall (λ t, t ≠ "") line →
  updateState st line = Ok st' →
  (mount st ≠ "" → mount st' ≠ "") ∧
  (isBlockStart line = true →
     line !! 4%nat = Some (mount st') ∧ line !! 1%nat = Some (export st') ∧
     version st' = version st) ∧
  (isBlockStart line = false →
     mount st' = mount st ∧ export st' = export st) ∧
  (isBlockStart line = true ∨ isVersionLine line = false →
     version st' = version st).
Proof.
  intros Hne Hupd. unfold updateState, index in Hupd.
  destruct (isBlockStart line).
  - destruct (line !! 4%nat) as [m|] eqn:H4; [|done].
    destruct (line !! 1%nat) as [e|] eqn:H1; [|done]. simplify_eq. simpl.
    split_and!; [|done..]. intros _.
    rewrite Forall_forall in Hne. apply Hne. by eapply list_elem_of_lookup_2.
  - destruct (isVersionLine line).
    + destruct (line !! 5%nat) as [l5|]; [|done].
      destruct (Split l5 "/" !! 1%nat); [|done]. simplify_eq. simpl.
      split_and!; [done..|]. by intros [|].
    + by simplify_eq.
Qed.

(** X8. Each line leaves the mount and export of the state alone unless it
    is a block-start line, which sets them to the tokens at index 4 and 1;
    the version changes on version-marker lines that are no block-start
    lines only, so a new block keeps the version of the one before until
    its own version line. The mount, once set, is never empty again: no
    scan returns to the state without a mount. *)
Theorem mount_state_tracked (n : NFSClient) (st st' : scanState)
    (scanner : list string) (acc acc' : Accumulator) :
  scanLoop n st scanner acc = (acc', Ok st') →
  (mount st ≠ "" → mount st' ≠ "") ∧
  (Forall (λ text, isBlockStart (Fields text) = false) scanner →
     mount st' = mount st ∧ export st' = export st) ∧
  (Forall (λ text, isBlockStart (Fields text) = true ∨
                   isVersionLine (Fields text) = false) scanner →
     version st' = version st) ∧
  (∀ pre text,
     scanner = pre ++ [text] → isBlockStart (Fields text) = true →
     Fields text !! 4%nat = Some (mount st') ∧
     Fields text !! 1%nat = Some (export st')).
Proof.
  revert st acc. induction scanner as [|text scanner IH]; intros st acc Hrun.
  - simpl in Hrun. unfold ret in Hrun. simplify_eq.
    split_and!; [done..|]. intros pre text Hnil. by destruct pre.
  - simpl in Hrun. unfold bind in Hrun.
    destruct (scanLine n st text acc) as [acc1 [st1|e|p]] eqn:Hline; [|done..].
    apply scanLine_Ok_state in Hline.
    destruct (updateState_mount st (Fields text) st1 (Fields_nonempty text) Hline)
      as (Hm1 & Hb1 & Hnb1 & Hv1).
    destruct (IH st1 acc1 Hrun) as (Hm & Hnb & Hv & Hlast).
    split_and!.
    + auto.
    + intros Hall. inversion Hall as [|? ? Hb Hrest]; subst.
      destruct (Hnb Hrest) as [-> ->]. by apply Hnb1.
    + intros Hall. inversion Hall as [|? ? Hb Hrest]; subst.
      rewrite (Hv Hrest). by apply Hv1.
    + intros pre text' Heq Hb. destruct pre as [|t pre]; simpl in Heq.
      * simplify_eq. simpl in Hrun. unfold ret in Hrun. simplify_eq.
        destruct (Hb1 Hb) as (? & ? & _). done.
      * simplify_eq. by eapply Hlast.
Qed.

Lemma mount_state_tracked_witness :
  Fields "device srv:/export mounted on /mnt with fstype nfs4 statvers=1.1"
    !! 4%nat = Some "/mnt" ∧
  Fields "device srv:/export mounted on /mnt with fstype nfs4 statvers=1.1"
    !! 1%nat = Some "srv:/export".
Proof.
  destruct (mount_state_tracked zeroClient initState
              {| mount := "/mnt"; version := ""; export := "srv:/export" |}
              ["device srv:/export mounted on /mnt with fstype nfs4 statvers=1.1"]
              [] [] eq_refl) as (_ & _ & _ & Hlast).
  exact (Hlast []
           "device srv:/export mounted on /mnt with fstype nfs4 statvers=1.1"
           eq_refl eq_refl).
Defined.

(** ** The version *)

Lemma string_app_cons c (s t : string) : String c s +:+ t = String c (s +:+ t).
Proof. reflexivity. Qed.

Lemma string_app_String (s : string) c (t : string) :
  (s +:+ String c "") +:+ t = s +:+ String c t.
Proof.
  induction s as [|c' s IH]; [done|]. rewrite !string_app_cons. by rewrite IH.
Qed.

Lemma string_app_empty (s : string) : s +:+ "" = s.
Proof.
  induction s as [|c s IH]; [done|]. rewrite string_app_cons. by rewrite IH.
Qed.

Lemma Split_from_head sep s : ∀ cur,
  ∃ rest, Split_from cur s sep = (cur +:+ beforeByte sep s) :: rest.
Proof.
  induction s as [|c s IH]; intros cur; simpl.
  - exists []. by rewrite string_app_empty.
  - destruct (Ascii.eqb c sep).
    + eexists. by rewrite string_app_empty.
    + destruct (IH (cur +:+ String c "")) as [rest ->]. exists rest.
      by rewrite string_app_String.
Qed.

Lemma Split_from_at_sep sep pre post : ∀ cur,
  hasByte sep pre = false →
  Split_from cur (pre +:+ String sep post) sep =
    (cur +:+ pre) :: Split_from "" post sep.
Proof.
  induction pre as [|c pre IH]; intros cur Hno.
  - change ("" +:+ String sep post) with (String sep post).
    cbn [Split_from]. rewrite Ascii.eqb_refl. by rewrite string_app_empty.
  - simpl in Hno. apply orb_false_iff in Hno as [Hc Hpre].
    rewrite string_app_cons. cbn [Split_from]. rewrite Hc.
    rewrite IH by done. by rewrite string_app_String.
Qed.

(** X9. On a version-marker line (one that is no block-start line) whose
    token at index 5 has a [/], the version becomes the text between the
    first [/] and the next one (or the end of the token), and mount and
    export stay: "100003/3" gives "3", "a/b/c" gives "b". *)
Theorem version_extracted (st : scanState) (line : list string)
    (pre post : string) :
  isBlockStart line = false → isVersionLine line = true →
  line !! 5%nat = Some (pre +:+ String "/" post) →
  hasByte "/" pre = false →
  updateState st line =
    Ok {| mount := mount st; version := beforeByte "/" post; export := export st |}.
Proof.
  intros Hb Hv H5 Hpre. unfold updateState. rewrite Hb, Hv.
  unfold index at 1. rewrite H5. unfold Split.
  rewrite Split_from_at_sep by done.
  destruct (Split_from_head "/" post "") as [rest ->]. done.
Qed.

Lemma version_extracted_witness :
  updateState {| mount := "/mnt"; version := ""; export := "/export" |}
    (Fields "	RPC iostats version: 1.0  p/v: 100003/4 (nfs4)") =
  Ok {| mount := "/mnt"; version := "4"; export := "/export" |}.
Proof.
  apply (version_extracted {| mount := "/mnt"; version := ""; export := "/export" |}
           (Fields "	RPC iostats version: 1.0  p/v: 100003/4 (nfs4)")
           "100003" "4"); reflexivity.
Defined.

(** ** Blank lines and failing prefixes *)

Lemma scanLine_blank n st text acc :
  blankLine text → scanLine n st text acc = (acc, Ok st).
Proof. intros H. unfold scanLine. unfold blankLine in H. by rewrite H. Qed.

Lemma scanLoop_filter_blank n scanner : ∀ st acc,
  scanLoop n st (filter (λ text, ¬ blankLine text) scanner) acc =
  scanLoop n st scanner acc.
Proof.
  induction scanner as [|text scanner IH]; intros st acc; [done|].
  destruct (decide (blankLine text)) as [Hb|Hb].
  - rewrite filter_cons_False by (by intros H; apply H).
    simpl. unfold bind. rewrite scanLine_blank by done. apply IH.
  - rewrite filter_cons_True by done. simpl. unfold bind.
    destruct (scanLine n st text acc) as [acc1 [st1|e|p]]; [apply IH|done..].
Qed.

(** X10. Lines without tokens (empty or white space only) have no effect:
    the scan of a file and the scan of the file without them give the same
    metrics and the same outcome. *)
Theorem blank_lines_ignored (n : NFSClient) (scanner : list string)
    (acc : Accumulator) :
  processText n (filter (λ text, ¬ blankLine text) scanner) acc =
  processText n scanner acc.
Proof. unfold processText, bind. by rewrite scanLoop_filter_blank. Qed.

(** X11. A scan that ends with an error or a panic ends the same way, with
    the same metrics, on every file that continues the lines read so far:
    no line after the failing one is looked at. *)
Theorem failure_is_final (n : NFSClient) (pre rest : list string)
    (acc acc1 : Accumulator) (r : result unit) :
  processText n pre acc = (acc1, r) → r ≠ Ok tt →
  processText n (pre ++ rest) acc = (acc1, r).
Proof.
  unfold processText, bind. intros Hrun Hr. rewrite scanLoop_app.
  destruct (scanLoop n initState pre acc) as [a [st1|e|p]]; unfold ret in *;
    simplify_eq; done.
Qed.

Lemma failure_is_final_witness :
  processText zeroClient
    (["device /export mounted on /mnt with fstype nfs"; "READ: 1 2 3"] ++
     ["WRITE: 10 10 0 100 0 50 5 0"]) [] =
  ([], Panic (index_out_of_range 3 3)).
Proof.
  apply (failure_is_final zeroClient
           ["device /export mounted on /mnt with fstype nfs"; "READ: 1 2 3"]
           ["WRITE: 10 10 0 100 0 50 5 0"] [] []
           (Panic (index_out_of_range 3 3)));
    [reflexivity | discriminate].
Defined.

(** ** The errors and the metrics of a scan *)

Lemma triple_weaken_err {A} I (c : M A) Q (E E' : error → Prop) :
  triple I c Q E → (∀ e, E e → E' e) → triple I c Q E'.
Proof.
  intros Hc Himp acc Hacc. destruct (Hc acc Hacc) as [HI HQ].
  split; [done|]. destruct (c acc).2; auto.
Qed.

Lemma convertToUint64_Err_raw line e :
  convertToUint64 line = Err e →
  ∃ raw, raw ∈ tail line ∧ (ParseUint raw).2 = Some ErrRange ∧
         e = errrange line raw maxUint64.
Proof.
  unfold convertToUint64. destruct (length line <? 2)%nat; [done|].
  intros (pre & raw & post & Htail & _ & Hraw & ->)%convertToUint64_loop_Err_iff.
  exists raw. split_and!; [|done..]. rewrite Htail.
  apply elem_of_app. right. by left.
Qed.

Lemma scanLoop_rangeErrorOf n scanner : ∀ st,
  triple (λ _, True) (scanLoop n st scanner) (λ _, True) (rangeErrorOf scanner).
Proof.
  induction scanner as [|text scanner IH]; intros st; simpl.
  - by apply triple_ret.
  - eapply triple_bind.
    + apply triple_scanLine; [done|].
      intros e (raw & Hin & Hraw & ->)%convertToUint64_Err_raw.
      exists text, raw. split_and!; [by left | done..].
    + intros st' _. eapply triple_weaken_err; [apply IH|].
      intros e (text' & raw & Hin & Hrest). exists text', raw.
      split; [by right | done].
Qed.

(** X12. The only error that a scan returns is the wrapped range error of
    a line of the file: some token after the first on that line is out of
    range for [uint64]. No other content of the file makes [processText]
    return an error. *)
Theorem scan_error_is_overflow (n : NFSClient) (scanner : list string)
    (acc acc' : Accumulator) (e : error) :
  processText n scanner acc = (acc', Err e) → rangeErrorOf scanner e.
Proof.
  intros Hrun.
  assert (triple (λ _, True) (processText n scanner) (λ _, True)
            (rangeErrorOf scanner)) as Ht.
  { unfold processText. eapply triple_bind; [apply scanLoop_rangeErrorOf|].
    intros. by apply triple_ret. }
  destruct (Ht acc I) as [_ H]. by rewrite Hrun in H.
Qed.

Lemma scan_error_is_overflow_witness :
  rangeErrorOf
    ["device /export mounted on /mnt with fstype nfs";
     "GETATTR: 1 99999999999999999999 3"]
    (could_not_parseStat
       (errrange ["GETATTR:"; "1"; "99999999999999999999"; "3"]
          "99999999999999999999" maxUint64)).
Proof.
  apply (scan_error_is_overflow zeroClient
           ["device /export mounted on /mnt with fstype nfs";
            "GETATTR: 1 99999999999999999999 3"] [] []).
  reflexivity.
Defined.

Section NamedTriple.

Variable n : NFSClient.
Variable N : string → Prop.
Variable T : gmap string string → Prop.
Variable I : Accumulator → Prop.
Variable E : error → Prop.
Hypothesis N_basic : N "nfsstat".
Hypothesis N_full :
  Fullstat n = true →
  N "nfs_events" ∧ N "nfs_bytes" ∧ N "nfs_xprt_tcp" ∧ N "nfs_xprt_udp" ∧
  N "nfs_ops".
Hypothesis T_operation : ∀ ts first, T ts → T (<["operation" := first]> ts).
Hypothesis I_add : ∀ acc name fs ts,
  I acc → T ts → N name →
  I (acc ++ [{| measurement := name; fields := fs; tags := ts |}]).

Ltac nstep :=
  first
    [ apply triple_ret; done
    | apply triple_index
    | apply triple_assignFields
    | apply triple_assignOps
    | apply triple_AddFields; intros; apply I_add; auto; tauto
    | eapply triple_bind; [|intros ? ?] ].

Lemma named_basicStat first nline fs ts :
  T ts → triple I (basicStat first nline fs ts) (λ r, T r.2) E.
Proof.
  intros Hts. unfold basicStat.
  destruct (_ || _); [|by apply triple_ret].
  repeat (eapply triple_bind; [apply triple_index | intros ? _]).
  eapply (triple_bind _ _ _ _ (λ _, True)).
  { destruct (0 <? _); repeat nstep. }
  intros ? _. eapply triple_bind; [nstep|].
  intros ? _. apply triple_ret. simpl. auto.
Qed.

Lemma named_fullStat first line nline fs ts :
  Fullstat n = true → T ts →
  triple I (fullStat first line nline fs ts) (λ _, True) E.
Proof.
  intros Hfull%N_full Hts. unfold fullStat.
  repeat first [ nstep | match goal with |- context [if ?b then _ else _] =>
                           destruct b end ].
Qed.

Lemma named_opsStat version first nline fs ts :
  Fullstat n = true → T ts →
  triple I (opsStat n version first nline fs ts) (λ _, True) E.
Proof.
  intros Hfull%N_full Hts. unfold opsStat.
  repeat first [ nstep | match goal with |- context [if ?b then _ else _] =>
                           destruct b end ].
Qed.

Lemma named_parseStat mountpoint export version line :
  T (<["serverexport" := export]> (<["mountpoint" := mountpoint]> ∅)) →
  (∀ e, convertToUint64 line = Err e → E e) →
  triple I (parseStat n mountpoint export version line) (λ _, True) E.
Proof.
  intros Hts Hconv. unfold parseStat.
  eapply (triple_bind _ _ _ _ (λ _, True)).
  { apply triple_lift. destruct (convertToUint64 line); auto. }
  intros nline _. unfold classify.
  destruct (_ =? _)%nat; [by apply triple_ret|].
  eapply triple_bind; [apply triple_index | intros l0 _].
  eapply triple_bind; [by apply named_basicStat | intros [fs' ts'] Hts'].
  simpl in Hts'.
  assert (Fullstat n = true ∨ Fullstat n = false) as [Hfull|Hfull]
    by (destruct (Fullstat n); auto);
    rewrite Hfull; [|by apply triple_ret].
  eapply triple_bind; [by apply named_fullStat | intros ? _].
  by apply named_opsStat.
Qed.

Hypothesis T_start : ∀ mountpoint export,
  T (<["serverexport" := export]> (<["mountpoint" := mountpoint]> ∅)).
Hypothesis E_any : ∀ e, E e.

Lemma named_scanLine st text : triple I (scanLine n st text) (λ _, True) E.
Proof.
  unfold scanLine. destruct (_ =? _)%nat; [by apply triple_ret|].
  eapply (triple_bind _ _ _ _ (λ _, True)).
  { apply triple_lift. destruct (updateState st (Fields text)); auto. }
  intros st' _.
  destruct (_ =? _)%string; [by apply triple_ret|].
  destruct (skipMount n (mount st')); [by apply triple_ret|].
  eapply triple_bind; [|intros; by apply triple_ret].
  eapply (triple_wrapErr _ E E); [|intros; apply E_any].
  apply named_parseStat; auto.
Qed.

Lemma named_scanLoop scanner : ∀ st,
  triple I (scanLoop n st scanner) (λ _, True) E.
Proof.
  induction scanner as [|text scanner IH]; intros st; simpl.
  - by apply triple_ret.
  - eapply triple_bind; [apply named_scanLine | intros; apply IH].
Qed.

End NamedTriple.

(** X13. A scan only adds to the accumulator: the metrics that were there
    stay, in order, at the front. Each added metric has one of the six
    measurement names, and the name [nfsstat] when full statistics are
    off; it carries the tags [mountpoint] and [serverexport] and, besides
    them, at most [operation]. *)
Theorem metrics_appended (n : NFSClient) (scanner : list string)
    (acc : Accumulator) :
  ∃ ms, (processText n scanner acc).1 = acc ++ ms ∧ Forall (emitted n) ms.
Proof.
  set (Inv := λ a : Accumulator, ∃ ms, a = acc ++ ms ∧ Forall (emitted n) ms).
  set (T := λ ts : gmap string string,
         is_Some (ts !! "mountpoint") ∧ is_Some (ts !! "serverexport") ∧
         dom ts ⊆ ({["mountpoint"; "serverexport"; "operation"]} : gset string)).
  set (N := λ name : string,
         name ∈ measurementNames ∧ (Fullstat n = false → name = "nfsstat")).
  assert (triple Inv (processText n scanner) (λ _, True) (λ _, True)) as Ht.
  { unfold processText. eapply triple_bind; [|intros; by apply triple_ret].
    apply (named_scanLoop n N T Inv (λ _, True)).
    - split; [by left | done].
    - intros Hfull. unfold N, measurementNames.
      repeat split; try (intros ?; congruence);
        by apply (bool_decide_unpack _); vm_compute.
    - intros ts first (Hm & He & Hdom). unfold T.
      rewrite !lookup_insert_ne by done. rewrite dom_insert.
      split; [done|]. split; [done|]. clear Hm He.
      apply union_least; [|done]. apply singleton_subseteq_l.
      rewrite !elem_of_union, !elem_of_singleton. by right.
    - intros a name fs ts (ms & -> & Hms) Hts Hname.
      exists (ms ++ [{| measurement := name; fields := fs; tags := ts |}]).
      split; [by rewrite app_assoc|]. apply Forall_app. split; [done|].
      apply Forall_singleton. unfold emitted. simpl.
      destruct Hts as (? & ? & ?), Hname as (? & ?). by split_and!.
    - intros mp ex. unfold T. rewrite lookup_insert_ne by done.
      rewrite !lookup_insert_eq, !dom_insert, dom_empty.
      split; [done|]. split; [done|].
      intros k. rewrite !elem_of_union, !elem_of_singleton, elem_of_empty.
      tauto.
    - done. }
  destruct (Ht acc) as [(ms & Hms & Hall) _].
  { exists []. by rewrite app_nil_r. }
  by exists ms.
Qed.

(** ** The content of the metrics *)

Lemma assignFields_run names : ∀ i off nline (fs : gmap string value),
  NoDup names → (i + off + length names ≤ length nline)%nat →
  ∃ fs' : gmap string value,
    (∀ acc, assignFields names i off nline fs acc = (acc, Ok fs')) ∧
    (∀ k, k ∉ names → fs' !! k = fs !! k) ∧
    (∀ j name, names !! j = Some name →
               fs' !! name = VUint <$> nline !! (i + j + off)%nat).
Proof.
  induction names as [|t names IH]; intros i off nline fs Hnd Hlen.
  - exists fs. split_and!; [done | done | by intros [] ].
  - apply NoDup_cons in Hnd as [Hfresh Hnd]. simpl in Hlen.
    destruct (lookup_lt_is_Some_2 nline (i + off)) as [x Hx]; [lia|].
    destruct (IH (S i) off nline (<[t := VUint x]> fs) Hnd)
      as (fs' & Hrun & Hkeep & Hpos); [simpl; lia|].
    exists fs'. split_and!.
    + intros acc. simpl. unfold bind, lift, index. rewrite Hx. apply Hrun.
    + intros k Hk. apply not_elem_of_cons in Hk as [Hne Hk].
      rewrite Hkeep by done. by apply lookup_insert_ne.
    + intros [|j] name Hname.
      * simpl in Hname. simplify_eq. rewrite Nat.add_0_r, Hx.
        rewrite Hkeep by done. apply lookup_insert_eq.
      * simpl in Hname. rewrite (Hpos j name Hname).
        by replace (S i + j + off)%nat with (i + S j + off)%nat by lia.
Qed.

Lemma assignFields_panic names : ∀ i off nline fs acc,
  (i + off ≤ length nline)%nat → (length nline < i + off + length names)%nat →
  assignFields names i off nline fs acc =
    (acc, Panic (index_out_of_range (length nline) (length nline))).
Proof.
  induction names as [|t names IH]; intros i off nline fs acc Hlo Hhi;
    simpl in *; [lia|].
  unfold bind, lift, index.
  destruct (nline !! (i + off)%nat) as [x|] eqn:Hx.
  - apply lookup_lt_Some in Hx. apply IH; simpl; lia.
  - apply lookup_ge_None in Hx. by replace (i + off)%nat with (length nline) by lia.
Qed.

Lemma names_NoDup :
  NoDup eventsFields ∧ NoDup bytesFields ∧ NoDup xprttcpFields ∧
  NoDup xprtudpFields.
Proof. split_and!; by apply (bool_decide_unpack _); vm_compute. Qed.

Lemma positional_is_Some (names : list string) (nline : list Z) (off : nat)
    (fs : gmap string value) :
  (off + length names ≤ length nline)%nat →
  (∀ k, k ∉ names → fs !! k = None) →
  (∀ j name, names !! j = Some name → fs !! name = VUint <$> nline !! (j + off)%nat) →
  ∀ k, is_Some (fs !! k) ↔ k ∈ names.
Proof.
  intros Hlen Hout Hpos k. split.
  - intros Hk. destruct (decide (k ∈ names)) as [|Hn]; [done|].
    rewrite (Hout k Hn) in Hk. by destruct Hk.
  - intros (j & Hj)%list_elem_of_lookup_1. rewrite (Hpos j k Hj).
    apply lookup_lt_Some in Hj.
    destruct (lookup_lt_is_Some_2 nline (j + off)) as [x ->]; [lia|]. by eexists.
Qed.

(** X14. A READ or WRITE line with at least 8 numeric fields first adds the
    [nfsstat] metric, with the operation tag and exactly six fields: ops
    (field 0), retrans, bytes (fields 3 and 4 added modulo 2^64), rtt
    (field 6), exe (field 7) and rtt_per_op, which is the float 0.0 when
    field 0 is zero (nothing is divided then) and the quotient of the
    floats of fields 6 and 0 otherwise. With full statistics off nothing
    else is added. *)
Theorem basic_metric_fields (n : NFSClient) (mp ex v : string)
    (line : list string) (l0 : string) (n0 n1 n2 n3 n4 n5 n6 n7 : Z)
    (rest : list Z) (acc : Accumulator) :
  line !! 0%nat = Some l0 → isReadWrite (Replace1 l0 ":") →
  convertToUint64 line = Ok (n0 :: n1 :: n2 :: n3 :: n4 :: n5 :: n6 :: n7 :: rest) →
  ∃ basic more,
    parseStat n mp ex v line acc = (acc ++ basic :: more, Ok tt) ∧
    measurement basic = "nfsstat" ∧
    tags basic = <["operation" := Replace1 l0 ":"]> (startTags mp ex) ∧
    dom (fields basic) =
      ({["ops"; "retrans"; "bytes"; "rtt"; "exe"; "rtt_per_op"]} : gset string) ∧
    fields basic !! "ops" = Some (VUint n0) ∧
    fields basic !! "bytes" = Some (VUint ((n3 + n4) mod 2 ^ 64)) ∧
    fields basic !! "rtt" = Some (VUint n6) ∧
    fields basic !! "exe" = Some (VUint n7) ∧
    fields basic !! "rtt_per_op" =
      Some (VFloat (if n0 =? 0 then float64_zero
                    else float64_div (float64_of_uint64 n6) (float64_of_uint64 n0))) ∧
    (Fullstat n = false → more = []).
Proof.
  intros Hl0 Hrw Hconv.
  pose proof (convertToUint64_range _ _ Hconv) as Hrange.
  assert (0 ≤ n0) as Hn0 by (inversion Hrange; subst; lia).
  set (nline := n0 :: n1 :: n2 :: n3 :: n4 :: n5 :: n6 :: n7 :: rest) in *.
  set (first := Replace1 l0 ":") in *.
  set (basic := {| measurement := "nfsstat";
                   fields := basicFields n0 n1 n3 n4 n6 n7 ∅;
                   tags := <["operation" := first]> (startTags mp ex) |}).
  assert (∃ more, parseStat n mp ex v line acc = (acc ++ basic :: more, Ok tt) ∧
                  (Fullstat n = false → more = [])) as (more & Hrun & Hmore).
  { rewrite (parseStat_convert_ok _ _ _ _ _ _ _ Hconv).
    unfold nline. rewrite (classify_ReadWrite n v line l0 first) by done.
    fold basic. fold nline.
    destruct (Fullstat n); [|by exists []].
    unfold opsStat. destruct (tracked n v first); [|by exists []].
    destruct (Nat.leb_spec (length nline) (length nfsopFields)) as [Hle|Hgt];
      [|by exists []].
    unfold bind.
    destruct (assignOps_run nline 0 (fields basic) Hle) as (fs' & -> & _).
    unfold AddFields. rewrite <- app_assoc. by eexists [_]. }
  exists basic, more. simpl. unfold basicFields.
  split_and!; try done.
  - destruct (0 <? n0); rewrite !dom_insert_L, dom_empty_L; set_solver.
  - destruct (0 <? n0); by simplify_map_eq.
  - destruct (0 <? n0); by simplify_map_eq.
  - destruct (0 <? n0); by simplify_map_eq.
  - destruct (0 <? n0); by simplify_map_eq.
  - destruct (Z.ltb_spec 0 n0), (Z.eqb_spec n0 0); try lia; by simplify_map_eq.
Qed.

Lemma basic_metric_fields_witness :
  ∃ basic more,
    parseStat zeroClient "/mnt" "/export" "3"
      ["WRITE:"; "0"; "0"; "0"; "5"; "18446744073709551615"; "0"; "9"; "9"] [] =
      ([] ++ basic :: more, Ok tt) ∧
    fields basic !! "rtt_per_op" = Some (VFloat float64_zero) ∧
    fields basic !! "bytes" = Some (VUint 4).
Proof.
  destruct (basic_metric_fields zeroClient "/mnt" "/export" "3"
              ["WRITE:"; "0"; "0"; "0"; "5"; "18446744073709551615"; "0"; "9"; "9"]
              "WRITE:" 0 0 0 5 18446744073709551615 0 9 9 [] [])
    as (basic & more & Hrun & _ & _ & _ & _ & Hbytes & _ & _ & Hrtt & _);
    [reflexivity | by right | reflexivity | ].
  exists basic, more. split_and!; [exact Hrun | exact Hrtt | exact Hbytes].
Defined.

(** X15. In full-statistics mode, a line of a tracked operation other than
    READ and WRITE (and none of events, bytes, xprt) with 1 to 9 numeric
    fields adds exactly one [nfs_ops] metric, tagged with the operation,
    whose fields are the first names of [nfsopFields] with the values at
    the same positions and nothing else; with more than 9 numeric fields
    the line adds nothing and is not truncated. *)
Theorem ops_metric_positional (n : NFSClient) (mp ex v : string)
    (line : list string) (l0 : string) (nline : list Z) (acc : Accumulator) :
  Fullstat n = true →
  line !! 0%nat = Some l0 → Replace1 l0 ":" ∉ categoryKeys →
  tracked n v (Replace1 l0 ":") = true →
  convertToUint64 line = Ok nline → (0 < length nline)%nat →
  ((length nline ≤ 9)%nat →
     ∃ fs : gmap string value,
       parseStat n mp ex v line acc =
         (acc ++ [{| measurement := "nfs_ops"; fields := fs;
                     tags := <["operation" := Replace1 l0 ":"]> (startTags mp ex) |}],
          Ok tt) ∧
       (∀ i name, nfsopFields !! i = Some name →
                  fs !! name = VUint <$> nline !! i) ∧
       (∀ k, k ∉ nfsopFields → fs !! k = None)) ∧
  ((9 < length nline)%nat → parseStat n mp ex v line acc = (acc, Ok tt)).
Proof.
  intros Hfull Hl0 Hkeys Htr Hconv Hpos.
  set (first := Replace1 l0 ":") in *.
  assert (parseStat n mp ex v line acc =
            opsStat n v first nline ∅ (startTags mp ex) acc) as ->.
  { rewrite (parseStat_convert_ok _ _ _ _ _ _ _ Hconv). unfold classify.
    destruct (Nat.eqb_spec (length nline) 0) as [|_]; [lia|].
    unfold bind at 1. unfold lift, index. rewrite Hl0. fold first.
    unfold bind at 1. rewrite basicStat_other.
    2, 3: intros Heq; apply Hkeys; rewrite Heq; set_solver.
    rewrite Hfull. unfold bind. rewrite fullStat_other; [done|..];
      intros Heq; apply Hkeys; rewrite Heq; unfold categoryKeys; set_solver. }
  unfold opsStat. rewrite Htr. split.
  - intros Hle.
    assert (length nline ≤ length nfsopFields)%nat as Hle' by (simpl; lia).
    destruct (Nat.leb_spec (length nline) (length nfsopFields)) as [_|]; [|lia].
    destruct (assignOps_run nline 0 ∅ Hle') as (fs & Hrun & Hkeep & Hfs).
    exists fs. unfold bind. rewrite Hrun. split_and!; [done| |].
    + intros i name Hname.
      destruct (nline !! i) as [t|] eqn:Ht; [by apply (Hfs i)|].
      simpl. rewrite Hkeep by
        (intros (j & Hj & Hlt)%elem_of_take; rewrite drop_0 in Hj;
         pose proof (NoDup_lookup _ _ _ _ nfsopFields_NoDup Hname Hj);
         apply lookup_ge_None in Ht; lia).
      apply lookup_empty.
    + intros k Hk. rewrite Hkeep; [apply lookup_empty|].
      intros Hin. by apply elem_of_take_drop_names in Hin.
  - intros Hgt.
    destruct (Nat.leb_spec (length nline) (length nfsopFields)) as [Hle|_];
      [simpl in Hle; lia | done].
Qed.

Lemma ops_metric_positional_witness :
  ∃ fs : gmap string value,
    parseStat fullstatClient "/mnt" "/export" "3"
      ["GETATTR:"; "5"; "5"; "0"; "0"; "0"; "2"; "1"; "0"; "0"] [] =
      ([] ++ [{| measurement := "nfs_ops"; fields := fs;
                 tags := <["operation" := "GETATTR"]> (startTags "/mnt" "/export") |}],
       Ok tt) ∧
    fs !! "queue_time" = Some (VUint 2).
Proof.
  destruct (ops_metric_positional fullstatClient "/mnt" "/export" "3"
              ["GETATTR:"; "5"; "5"; "0"; "0"; "0"; "2"; "1"; "0"; "0"]
              "GETATTR:" [5; 5; 0; 0; 0; 2; 1; 0; 0] []) as [Hemit _];
    [reflexivity | reflexivity | | reflexivity | reflexivity | simpl; lia | ].
  - by apply (bool_decide_unpack _); vm_compute.
  - destruct Hemit as (fs & Hrun & Hfs & _); [simpl; lia|].
    exists fs. split; [exact Hrun|]. exact (Hfs 5%nat "queue_time" eq_refl).
Defined.

Lemma parseStat_fullStat n mp ex v line l0 nline acc :
  Fullstat n = true → line !! 0%nat = Some l0 →
  Replace1 l0 ":" ≠ "READ" → Replace1 l0 ":" ≠ "WRITE" →
  tracked n v (Replace1 l0 ":") = false →
  convertToUint64 line = Ok nline → (0 < length nline)%nat →
  parseStat n mp ex v line acc =
    match fullStat (Replace1 l0 ":") line nline ∅ (startTags mp ex) acc with
    | (acc', Ok _) => (acc', Ok tt)
    | (acc', Err e) => (acc', Err e)
    | (acc', Panic p) => (acc', Panic p)
    end.
Proof.
  intros Hfull Hl0 Hr Hw Htr Hconv Hpos.
  rewrite (parseStat_convert_ok _ _ _ _ _ _ _ Hconv). unfold classify.
  destruct (Nat.eqb_spec (length nline) 0) as [|_]; [lia|].
  unfold bind at 1. unfold lift, index. rewrite Hl0.
  unfold bind at 1. rewrite basicStat_other by done.
  rewrite Hfull. unfold bind.
  destruct (fullStat _ _ _ _ _ acc) as [acc' [fs|e|p]]; [|done..].
  by apply opsStat_untracked.
Qed.

(** X16. In full-statistics mode an events line with at least 27 numeric
    fields adds one [nfs_events] metric, and a bytes line with at least 8
    one [nfs_bytes] metric: the fields are exactly the names of the
    category, each with the value at its position (further values are
    ignored), and the tags are mountpoint and serverexport only. With
    fewer numeric fields the line adds nothing and ends normally. All this
    when events, or bytes, is not a tracked operation of the current
    version (as when the include list is empty, the names being in neither
    list of operations). *)
Theorem events_bytes_metric (n : NFSClient) (mp ex v : string)
    (line : list string) (l0 key mname : string) (names : list string)
    (nline : list Z) (acc : Accumulator) :
  (key, names, mname) ∈
    [("events", eventsFields, "nfs_events"); ("bytes", bytesFields, "nfs_bytes")] →
  Fullstat n = true →
  line !! 0%nat = Some l0 → Replace1 l0 ":" = key →
  tracked n v key = false →
  convertToUint64 line = Ok nline → (0 < length nline)%nat →
  ((length names ≤ length nline)%nat →
     ∃ fs : gmap string value,
       parseStat n mp ex v line acc =
         (acc ++ [{| measurement := mname; fields := fs;
                     tags := startTags mp ex |}], Ok tt) ∧
       (∀ j name, names !! j = Some name → fs !! name = VUint <$> nline !! j) ∧
       (∀ k, is_Some (fs !! k) ↔ k ∈ names)) ∧
  ((length nline < length names)%nat →
     parseStat n mp ex v line acc = (acc, Ok tt)).
Proof.
  intros Hcat Hfull Hl0 Hkey Htr Hconv Hpos.
  destruct names_NoDup as (Hnde & Hndb & _).
  assert (NoDup names ∧
          ∀ acc', fullStat key line nline ∅ (startTags mp ex) acc' =
            if (length names <=? length nline)%nat
            then bind (assignFields names 0 0 nline ∅)
                   (λ fs, bind (AddFields mname fs (startTags mp ex))
                            (λ _, ret fs)) acc'
            else (acc', Ok ∅)) as [Hnd Hfs].
  { clear Hkey Htr. apply elem_of_cons in Hcat as [Hc|Hc];
      [simplify_eq; split; [done|]; intros acc'; unfold fullStat;
       cbn [String.eqb Ascii.eqb Bool.eqb]; by destruct (_ <=? _)%nat|].
    apply elem_of_cons in Hc as [Hc|Hc];
      [simplify_eq; split; [done|]; intros acc'; unfold fullStat;
       cbn [String.eqb Ascii.eqb Bool.eqb]; by destruct (_ <=? _)%nat|].
    by apply elem_of_nil in Hc. }
  assert (key ≠ "READ" ∧ key ≠ "WRITE") as [Hr Hw].
  { clear Hkey Htr Hfs. apply elem_of_cons in Hcat as [Hc|Hc]; [by simplify_eq|].
    apply elem_of_cons in Hc as [Hc|Hc]; [by simplify_eq|].
    by apply elem_of_nil in Hc. }
  subst key.
  rewrite (parseStat_fullStat n mp ex v line l0 nline) by done.
  rewrite Hfs. split.
  - intros Hle. destruct (Nat.leb_spec (length names) (length nline)); [|lia].
    destruct (assignFields_run names 0 0 nline ∅ Hnd)
      as (fs & Hrun & Hkeep & Hfields); [lia|].
    exists fs. unfold bind. rewrite Hrun. unfold AddFields, ret.
    assert (∀ j name, names !! j = Some name → fs !! name = VUint <$> nline !! j)
      as Hfields'.
    { intros j name Hname. rewrite (Hfields j name Hname).
      by rewrite Nat.add_0_r. }
    split_and!; [done | done |].
    apply (positional_is_Some names nline 0); [lia | |].
    + intros k Hk. by rewrite Hkeep.
    + intros j name Hname. rewrite (Hfields' j name Hname).
      by rewrite Nat.add_0_r.
  - intros Hlt. by destruct (Nat.leb_spec (length names) (length nline)); [lia|].
Qed.

Lemma events_bytes_metric_witness :
  ∃ fs : gmap string value,
    parseStat fullstatClient "/mnt" "/export" "4"
      ["bytes:"; "1"; "2"; "3"; "4"; "5"; "6"; "7"; "8"; "9"] [] =
      ([] ++ [{| measurement := "nfs_bytes"; fields := fs;
                 tags := startTags "/mnt" "/export" |}], Ok tt) ∧
    fs !! "writepages" = Some (VUint 8).
Proof.
  destruct (events_bytes_metric fullstatClient "/mnt" "/export" "4"
              ["bytes:"; "1"; "2"; "3"; "4"; "5"; "6"; "7"; "8"; "9"]
              "bytes:" "bytes" "nfs_bytes" bytesFields
              [1; 2; 3; 4; 5; 6; 7; 8; 9] []) as [Hemit _];
    [right; left; reflexivity | reflexivity | reflexivity | reflexivity
    | reflexivity | reflexivity | simpl; lia | ].
  destruct Hemit as (fs & Hrun & Hfs & _); [simpl; lia|].
  exists fs. split; [exact Hrun|]. exact (Hfs 7%nat "writepages" eq_refl).
Defined.

(** X17. In full-statistics mode an xprt line is classified by its second
    token. For tcp (9 names) and udp (6 names), with the values counted
    from the second token on: fewer values than names minus 2 add nothing;
    at least names plus 2 values add one [nfs_xprt_tcp] or [nfs_xprt_udp]
    metric whose field for the name at position j is the value at position
    j+2; in between, the line passes the length test and panics at the
    index that is the number of values. Any other second token (rdma for
    one) adds nothing. All this when xprt is not a tracked operation of
    the current version (as when the include list is empty). *)
Theorem xprt_metric (n : NFSClient) (mp ex v : string)
    (line : list string) (l0 l1 : string) (nline : list Z) (acc : Accumulator) :
  Fullstat n = true →
  line !! 0%nat = Some l0 → Replace1 l0 ":" = "xprt" →
  line !! 1%nat = Some l1 →
  tracked n v "xprt" = false →
  convertToUint64 line = Ok nline →
  (∀ names mname,
     (l1, names, mname) ∈
       [("tcp", xprttcpFields, "nfs_xprt_tcp"); ("udp", xprtudpFields, "nfs_xprt_udp")] →
     ((length nline + 2 < length names)%nat →
        parseStat n mp ex v line acc = (acc, Ok tt)) ∧
     ((length names + 2 ≤ length nline)%nat →
        ∃ fs : gmap string value,
          parseStat n mp ex v line acc =
            (acc ++ [{| measurement := mname; fields := fs;
                        tags := startTags mp ex |}], Ok tt) ∧
          (∀ j name, names !! j = Some name →
                     fs !! name = VUint <$> nline !! (j + 2)%nat) ∧
          (∀ k, is_Some (fs !! k) ↔ k ∈ names)) ∧
     ((length names ≤ length nline + 2)%nat →
      (length nline < length names + 2)%nat →
        parseStat n mp ex v line acc =
          (acc, Panic (index_out_of_range (length nline) (length nline))))) ∧
  (l1 ≠ "tcp" → l1 ≠ "udp" → parseStat n mp ex v line acc = (acc, Ok tt)).
Proof.
  intros Hfull Hl0 Hkey Hl1 Htr Hconv.
  assert (length nline = (length line - 1)%nat ∧ (2 ≤ length line)%nat)
    as [Hlen Hline].
  { destruct (convertToUint64_Ok_map _ _ Hconv) as [_ ->].
    apply lookup_lt_Some in Hl1. rewrite length_map.
    destruct line; simpl in *; lia. }
  assert (0 < length nline)%nat as Hpos by lia.
  rewrite (parseStat_fullStat n mp ex v line l0 nline);
    rewrite ?Hkey; try done.
  destruct names_NoDup as (_ & _ & Hndt & Hndu).
  assert (∀ acc', fullStat "xprt" line nline ∅ (startTags mp ex) acc' =
            if (l1 =? "tcp")%string then
              if (length xprttcpFields <=? length nline + 2)%nat
              then bind (assignFields xprttcpFields 0 2 nline ∅)
                     (λ fs, bind (AddFields "nfs_xprt_tcp" fs (startTags mp ex))
                              (λ _, ret fs)) acc'
              else (acc', Ok ∅)
            else if (l1 =? "udp")%string then
              if (length xprtudpFields <=? length nline + 2)%nat
              then bind (assignFields xprtudpFields 0 2 nline ∅)
                     (λ fs, bind (AddFields "nfs_xprt_udp" fs (startTags mp ex))
                              (λ _, ret fs)) acc'
              else (acc', Ok ∅)
            else (acc', Ok ∅)) as Hfs.
  { intros acc'. unfold fullStat.
    change ("xprt" =? "events")%string with false.
    change ("xprt" =? "bytes")%string with false.
    change ("xprt" =? "xprt")%string with true. cbv iota.
    destruct (Nat.ltb_spec 1 (length line)) as [_|]; [|lia].
    unfold bind at 1. unfold lift, index. rewrite Hl1.
    destruct (l1 =? "tcp")%string; [by destruct (_ <=? _)%nat|].
    destruct (l1 =? "udp")%string; [by destruct (_ <=? _)%nat|]. done. }
  rewrite Hfs. split.
  - intros names mname Hcat.
    assert (NoDup names ∧
            (if (l1 =? "tcp")%string then
               if (length xprttcpFields <=? length nline + 2)%nat
               then bind (assignFields xprttcpFields 0 2 nline ∅)
                      (λ fs, bind (AddFields "nfs_xprt_tcp" fs (startTags mp ex))
                               (λ _, ret fs)) acc
               else (acc, Ok ∅)
             else if (l1 =? "udp")%string then
               if (length xprtudpFields <=? length nline + 2)%nat
               then bind (assignFields xprtudpFields 0 2 nline ∅)
                      (λ fs, bind (AddFields "nfs_xprt_udp" fs (startTags mp ex))
                               (λ _, ret fs)) acc
               else (acc, Ok ∅)
             else (acc, Ok ∅)) =
            if (length names <=? length nline + 2)%nat
            then bind (assignFields names 0 2 nline ∅)
                   (λ fs, bind (AddFields mname fs (startTags mp ex))
                            (λ _, ret fs)) acc
            else (acc, Ok ∅)) as [Hnd ->].
    { apply elem_of_cons in Hcat as [Hc|Hc]; [by simplify_eq|].
      apply elem_of_cons in Hc as [Hc|Hc]; [by simplify_eq|].
      by apply elem_of_nil in Hc. }
    split_and!.
    + intros Hlt. by destruct (Nat.leb_spec (length names) (length nline + 2)); [lia|].
    + intros Hle. destruct (Nat.leb_spec (length names) (length nline + 2)); [|lia].
      destruct (assignFields_run names 0 2 nline ∅ Hnd)
        as (fs & Hrun & Hkeep & Hfields); [lia|].
      exists fs. unfold bind. rewrite Hrun. unfold AddFields, ret.
      split_and!; [done | exact Hfields |].
      apply (positional_is_Some names nline 2); [lia | | exact Hfields].
      intros k Hk. by rewrite Hkeep.
    + intros Hle Hlt. destruct (Nat.leb_spec (length names) (length nline + 2)); [|lia].
      unfold bind. rewrite assignFields_panic; [done| |lia].
      assert (4 ≤ length names)%nat; [|lia].
      apply elem_of_cons in Hcat as [Hc|Hc]; [simplify_eq; simpl; lia|].
      apply elem_of_cons in Hc as [Hc|Hc]; [simplify_eq; simpl; lia|].
      by apply elem_of_nil in Hc.
  - intros Ht%String.eqb_neq Hu%String.eqb_neq. by rewrite Ht, Hu.
Qed.

Lemma xprt_metric_witness :
  ∃ fs : gmap string value,
    parseStat fullstatClient "/mnt" "/export" "3"
      ["xprt:"; "tcp"; "832"; "0"; "1"; "0"; "11"; "6428"; "6428"; "0";
       "12154"; "0"; "24"] [] =
      ([] ++ [{| measurement := "nfs_xprt_tcp"; fields := fs;
                 tags := startTags "/mnt" "/export" |}], Ok tt) ∧
    fs !! "rpcsends" = Some (VUint 6428).
Proof.
  destruct (xprt_metric fullstatClient "/mnt" "/export" "3"
              ["xprt:"; "tcp"; "832"; "0"; "1"; "0"; "11"; "6428"; "6428"; "0";
               "12154"; "0"; "24"]
              "xprt:" "tcp" [0; 832; 0; 1; 0; 11; 6428; 6428; 0; 12154; 0; 24] [])
    as [Hcases _]; try reflexivity.
  destruct (Hcases xprttcpFields "nfs_xprt_tcp") as (_ & Hemit & _);
    [left; reflexivity|].
  destruct Hemit as (fs & Hrun & Hfs & _); [simpl; lia|].
  exists fs. split; [exact Hrun|]. exact (Hfs 4%nat "rpcsends" eq_refl).
Defined.
